(** * Fitness tracker bot: storage helpers, handlers and their properties

    A shallow embedding of [telegram-fitness-bot.py].  The SQLite database
    is a record of three tables, each a list of rows kept in rowid order;
    every helper that opens a connection, runs its statements and commits
    becomes a function from database to database.  The handlers of the
    bot are functions on the database together with the per-user
    [context.user_data] dictionaries.

    Conventions of the model:
    - [datetime.now()] is an explicit argument [now], counted in
      microseconds.  The sqlite3 adapter stores a datetime as its ISO text,
      whose text order agrees with the order of the instants, so instants
      are compared as integers.
    - Integers are unbounded ([Z]); the identifiers handled by the bot
      (Telegram user ids, AUTOINCREMENT row ids) fit SQLite's 64-bit
      INTEGER.
    - Python's [None] and SQL's NULL are [None] of an option type.
    - A Python string is the string of its UTF-8 bytes.
    - The FOREIGN KEY clauses are declared only: SQLite does not enforce
      them unless asked to, and the program does not ask. *)

From Stdlib Require Import Ascii String.
From stdpp Require Import base numbers list sorting gmap strings pretty.

Open Scope Z_scope.

(** ** Tables (lines 25-43) *)

(** users (user_id INTEGER PRIMARY KEY, username TEXT, first_name TEXT) *)
Record user_row := UserRow {
  user_id : Z;
  username : option string;
  first_name : option string
}.

(** challenges (id, user_id, challenge_text, frequency, created_at,
    active BOOLEAN DEFAULT 1) *)
Record challenge_row := ChallengeRow {
  ch_id : Z;
  ch_user_id : Z;
  challenge_text : string;
  frequency : string;
  created_at : Z;
  active : bool
}.

(** completions (id, user_id, challenge_id, completed_at) *)
Record completion_row := CompletionRow {
  co_id : Z;
  co_user_id : Z;
  challenge_id : Z;
  completed_at : Z
}.

(** The database file.  [challenges_seq] and [completions_seq] are the two
    rows of sqlite_sequence that AUTOINCREMENT maintains: the largest id
    ever handed out in each table. *)
Record database := Database {
  users : list user_row;
  challenges : list challenge_row;
  completions : list completion_row;
  challenges_seq : Z;
  completions_seq : Z
}.

Global Instance user_row_eq_dec : EqDecision user_row.
Proof. solve_decision. Defined.
Global Instance challenge_row_eq_dec : EqDecision challenge_row.
Proof. solve_decision. Defined.
Global Instance completion_row_eq_dec : EqDecision completion_row.
Proof. solve_decision. Defined.
Global Instance database_eq_dec : EqDecision database.
Proof. solve_decision. Defined.

(** [init_db] on a fresh file: three empty tables. *)
Definition init_db : database :=
  {| users := []; challenges := []; completions := [];
     challenges_seq := 0; completions_seq := 0 |}.

(** ** AUTOINCREMENT *)

(** Largest id stored in a table, 0 for an empty table. *)
Definition max_id (ids : list Z) : Z := foldr Z.max 0 ids.

(** The id given to an inserted row: one more than the largest id that
    ever existed in the table. *)
Definition next_id (seq : Z) (ids : list Z) : Z := Z.max seq (max_id ids) + 1.

(** ** Database helper functions (lines 49-104) *)

(** Rows of the users table are stored by rowid, which is [user_id]. *)
Fixpoint insert_user_row (r : user_row) (l : list user_row) : list user_row :=
  match l with
  | [] => [r]
  | x :: l' =>
      if bool_decide (user_id r < user_id x) then r :: x :: l'
      else x :: insert_user_row r l'
  end.

(** INSERT OR REPLACE INTO users VALUES (?, ?, ?): the rows that conflict on
    the primary key are deleted, then the new row is inserted. *)
Definition add_user (db : database) (uid : Z) (uname fname : option string)
  : database :=
  {| users := insert_user_row (UserRow uid uname fname)
                (filter (λ x, user_id x ≠ uid) (users db));
     challenges := challenges db;
     completions := completions db;
     challenges_seq := challenges_seq db;
     completions_seq := completions_seq db |}.

(** UPDATE challenges SET active = 0 WHERE user_id = ? *)
Definition deactivate (uid : Z) (c : challenge_row) : challenge_row :=
  if bool_decide (ch_user_id c = uid)
  then ChallengeRow (ch_id c) (ch_user_id c) (challenge_text c)
                    (frequency c) (created_at c) false
  else c.

(** [add_challenge]: the UPDATE, then the INSERT, whose [active] column takes
    its default 1 and whose id comes from AUTOINCREMENT. *)
Definition add_challenge (db : database) (uid : Z) (text freq : string)
    (now : Z) : database :=
  let updated := deactivate uid <$> challenges db in
  let new_id := next_id (challenges_seq db) (ch_id <$> updated) in
  {| users := users db;
     challenges := updated ++ [ChallengeRow new_id uid text freq now true];
     completions := completions db;
     challenges_seq := new_id;
     completions_seq := completions_seq db |}.

(** SELECT id, challenge_text, frequency FROM challenges
    WHERE user_id = ? AND active = 1 *)
Definition select_active (db : database) (uid : Z)
  : list (Z * string * string) :=
  (λ c, (ch_id c, challenge_text c, frequency c)) <$>
  filter (λ c, ch_user_id c = uid ∧ active c = true) (challenges db).

(** [get_active_challenge]: [fetchone] gives the first row of the result, or
    [None] when the result is empty. *)
Definition get_active_challenge (db : database) (uid : Z)
  : option (Z * string * string) :=
  head (select_active db uid).

(** [record_completion]: one INSERT, with the challenge id as given. *)
Definition record_completion (db : database) (uid cid : Z) (now : Z)
  : database :=
  let new_id := next_id (completions_seq db) (co_id <$> completions db) in
  {| users := users db;
     challenges := challenges db;
     completions := completions db ++ [CompletionRow new_id uid cid now];
     challenges_seq := challenges_seq db;
     completions_seq := new_id |}.

(** timedelta(days=30), in microseconds. *)
Definition thirty_days : Z := 30 * 86400 * 1000000.

(** ON u.user_id = c.user_id AND c.completed_at > ? : the completion rows
    that match a user row. *)
Definition on_rows (u : user_row) (cs : list completion_row) (cutoff : Z)
  : list completion_row :=
  filter (λ c, user_id u = co_user_id c ∧ cutoff < completed_at c) cs.

(** The rows a LEFT JOIN produces for one user row: one per matching
    completion row, or a single row with NULL for c when none matches. *)
Definition join_rows (u : user_row) (cs : list completion_row) (cutoff : Z)
  : list (user_row * option completion_row) :=
  match on_rows u cs cutoff with
  | [] => [(u, None)]
  | m => (λ c, (u, Some c)) <$> m
  end.

(** FROM users u LEFT JOIN completions c ON ... *)
Definition left_join (us : list user_row) (cs : list completion_row)
    (cutoff : Z) : list (user_row * option completion_row) :=
  u ← us; join_rows u cs cutoff.

(** One output row per group. *)
Record stat_row := StatRow {
  st_user_id : Z;
  st_first_name : option string;
  st_username : option string;
  completion_count : Z
}.

(** COUNT(c.id): the rows of the group whose c.id is not NULL. *)
Definition count_c_id (g : list (user_row * option completion_row)) : Z :=
  Z.of_nat (length (filter (λ p, is_Some (snd p)) g)).

(** GROUP BY u.user_id: one group per distinct user_id.  The bare columns
    u.first_name and u.username are read from a row of the group (here its
    first); under the primary key all rows of a group carry the same user
    row. *)
Definition group_by_user (j : list (user_row * option completion_row))
  : list stat_row :=
  k ← remove_dups (user_id ∘ fst <$> j);
  match filter (λ p, user_id (fst p) = k) j with
  | [] => []
  | (u, c) :: g =>
      [StatRow k (first_name u) (username u) (count_c_id ((u, c) :: g))]
  end.

(** ORDER BY completion_count DESC. *)
Definition count_desc (a b : stat_row) : Prop :=
  completion_count b ≤ completion_count a.

(** The sort keeps rows of equal count in the order in which the groups
    come, which is that of user_id. *)
Fixpoint insert_by_count (g : stat_row) (l : list stat_row) : list stat_row :=
  match l with
  | [] => [g]
  | x :: l' =>
      if bool_decide (completion_count x ≤ completion_count g)
      then g :: x :: l'
      else x :: insert_by_count g l'
  end.

Definition order_by_count_desc (l : list stat_row) : list stat_row :=
  foldr insert_by_count [] l.

Definition monthly_groups (db : database) (now : Z) : list stat_row :=
  let thirty_days_ago := now - thirty_days in
  order_by_count_desc
    (group_by_user (left_join (users db) (completions db) thirty_days_ago)).

(** [get_monthly_stats]: the selected columns of each group. *)
Definition get_monthly_stats (db : database) (now : Z)
  : list (option string * option string * Z) :=
  (λ g, (st_first_name g, st_username g, completion_count g)) <$>
  monthly_groups db now.

(** ** Python strings used by the handlers *)

(** [s.split(sep)] for a one-character separator: the pieces between the
    separators, empty pieces included. *)
Fixpoint split (sep : ascii) (s : string) : list string :=
  match s with
  | EmptyString => [EmptyString]
  | String c s' =>
      if bool_decide (c = sep) then EmptyString :: split sep s'
      else match split sep s' with
           | [] => [String c EmptyString]
           | w :: ws => String c w :: ws
           end
  end.

(** The ASCII characters that [int] skips around a number: tab to
    carriage return, and the space. *)
Definition py_isspace (c : ascii) : bool :=
  let n := N_of_ascii c in
  bool_decide ((9 ≤ n ≤ 13)%N ∨ n = 32%N).

Fixpoint lstrip (s : string) : string :=
  match s with
  | EmptyString => EmptyString
  | String c s' => if py_isspace c then lstrip s' else s
  end.

Fixpoint rstrip (s : string) : string :=
  match s with
  | EmptyString => EmptyString
  | String c s' =>
      match rstrip s' with
      | EmptyString => if py_isspace c then EmptyString else String c EmptyString
      | r => String c r
      end
  end.

Definition digit_value (c : ascii) : option Z :=
  let n := Z.of_N (N_of_ascii c) in
  if bool_decide (48 ≤ n ≤ 57) then Some (n - 48) else None.

Fixpoint digits_value (acc : Z) (s : string) : option Z :=
  match s with
  | EmptyString => Some acc
  | String c s' => d ← digit_value c; digits_value (acc * 10 + d) s'
  end.

Definition nonempty_digits_value (s : string) : option Z :=
  match s with
  | EmptyString => None
  | _ => digits_value 0 s
  end.

(** The number written in an ASCII text without underscore: optional
    white space, an optional sign, one or more decimal digits, optional
    white space.  [None] stands for ValueError. *)
Definition long_from_string (s : string) : option Z :=
  match rstrip (lstrip s) with
  | EmptyString => None
  | String c d =>
      if bool_decide (c = "-"%char) then Z.opp <$> nonempty_digits_value d
      else if bool_decide (c = "+"%char) then nonempty_digits_value d
      else nonempty_digits_value (String c d)
  end.

(** A Python string is kept as its UTF-8 bytes.  [code_points] reads the
    characters back; it gives [None] on bytes that are the encoding of no
    string. *)
Definition continuation (c : ascii) : option N :=
  let n := N_of_ascii c in
  if bool_decide (128 ≤ n < 192)%N then Some (n - 128)%N else None.

Fixpoint code_points (s : string) : option (list N) :=
  match s with
  | EmptyString => Some []
  | String c0 s0 =>
      let b0 := N_of_ascii c0 in
      if bool_decide (b0 < 128)%N then cons b0 <$> code_points s0
      else
        match s0 with
        | EmptyString => None
        | String c1 s1 =>
            if bool_decide (192 ≤ b0 < 224)%N then
              x1 ← continuation c1;
              cons ((b0 - 192) * 64 + x1)%N <$> code_points s1
            else
              match s1 with
              | EmptyString => None
              | String c2 s2 =>
                  if bool_decide (224 ≤ b0 < 240)%N then
                    x1 ← continuation c1; x2 ← continuation c2;
                    cons (((b0 - 224) * 64 + x1) * 64 + x2)%N
                    <$> code_points s2
                  else
                    match s2 with
                    | EmptyString => None
                    | String c3 s3 =>
                        if bool_decide (240 ≤ b0 < 248)%N then
                          x1 ← continuation c1; x2 ← continuation c2;
                          x3 ← continuation c3;
                          cons ((((b0 - 240) * 64 + x1) * 64 + x2) * 64 + x3)%N
                          <$> code_points s3
                        else None
                    end
              end
        end
  end.

Fixpoint is_ascii (s : string) : bool :=
  match s with
  | EmptyString => true
  | String c s' => bool_decide (N_of_ascii c < 128)%N && is_ascii s'
  end.

(** The white space characters from 127 on (Unicode 14.0). *)
Definition unicode_isspace (ch : N) : bool :=
  bool_decide (ch ∈ [133; 160; 5760; 8232; 8233; 8239; 8287; 12288]%N
               ∨ (8192 ≤ ch ≤ 8202)%N).

(** The characters with the value zero in each run of ten decimal digits
    (Unicode 14.0). *)
Definition digit_zeros : list N :=
  [
    48; 1632; 1776; 1984; 2406; 2534; 2662; 2790; 2918; 3046; 3174; 3302;
    3430; 3558; 3664; 3792; 3872; 4160; 4240; 6112; 6160; 6470; 6608;
    6784; 6800; 6992; 7088; 7232; 7248; 42528; 43216; 43264; 43472; 43504;
    43600; 44016; 65296; 66720; 68912; 69734; 69872; 69942; 70096; 70384;
    70736; 70864; 71248; 71360; 71472; 71904; 72016; 72784; 73040; 73120;
    92768; 92864; 93008; 120782; 120792; 120802; 120812; 120822; 123200;
    123632; 125264; 130032
  ]%N.

Definition unicode_decimal (ch : N) : option N :=
  match filter (λ z, z ≤ ch < z + 10)%N digit_zeros with
  | z :: _ => Some (ch - z)%N
  | [] => None
  end.

(** The ASCII text that [int] reads in place of a string with characters
    outside ASCII: white space becomes a space, a decimal digit the ASCII
    digit of its value, and the text ends with a question mark at the
    first character that is neither. *)
Fixpoint transform_decimal_and_space (chs : list N) : string :=
  match chs with
  | [] => EmptyString
  | ch :: rest =>
      if bool_decide (ch < 127)%N then
        String (ascii_of_N ch) (transform_decimal_and_space rest)
      else if unicode_isspace ch then
        String " " (transform_decimal_and_space rest)
      else
        match unicode_decimal ch with
        | Some d => String (ascii_of_N (48 + d)) (transform_decimal_and_space rest)
        | None => "?"
        end
  end.

(** [int(s)] on a piece that [split('_')] returned (so without
    underscore).  [None] stands for the ValueError that [int] raises.  In
    line with the integers of the model, the limit on the number of digits
    (4300 in recent versions) is not modelled: numbers of 64 bits stay far
    below it. *)
Definition py_int (s : string) : option Z :=
  if is_ascii s then long_from_string s
  else chs ← code_points s; long_from_string (transform_decimal_and_space chs).

(** [a or b] for an optional string [a]: [None] and the empty string are
    false. *)
Definition py_or (a : option string) (b : string) : string :=
  match a with
  | Some (String c s) => String c s
  | _ => b
  end.

(** ** Bot command handlers (lines 107-215) *)

(** What a handler sends.  The wording of the texts is not modelled, only
    which text it is and the values formatted into it. *)
Inductive medal := Gold | Silver | Bronze | Person.

Inductive text :=
  | Welcome (first_name : string)
  | FrequencyChosen (data : string)
  | MarkedComplete
  | UseStartFirst
  | ChallengeSet (frequency challenge_text : string)
  | NoActiveChallenge
  | DidYouComplete (frequency challenge_text : string)
  | NoStatistics
  | Leaderboard (lines : list (medal * string * Z)).

(** InlineKeyboardButton(label, callback_data=...) *)
Record button := Button { label : string; callback_data : string }.

Record message := Message {
  msg_text : text;
  reply_markup : list (list button)
}.

Inductive exception := ValueError.

(** A handler either returns after sending its messages or raises. *)
Inductive outcome :=
  | Sent (msgs : list message)
  | Raised (e : exception).

(** The state the handlers work on: the database file and
    [context.user_data], one dictionary per user id. *)
Record bot := Bot {
  db : database;
  user_data : gmap Z (gmap string string)
}.

Definition init_bot : bot := Bot init_db ∅.

(** [context.user_data] in an update of user [uid]. *)
Definition user_data_of (b : bot) (uid : Z) : gmap string string :=
  default ∅ (user_data b !! uid).

(** [start] (lines 107-125) *)
Definition start (b : bot) (uid : Z) (uname : option string) (fname : string)
  : bot * outcome :=
  (Bot (add_user (db b) uid uname (Some fname)) (user_data b),
   Sent [Message (Welcome fname)
           [[Button "Daily Challenge" "daily";
             Button "Weekly Challenge" "weekly"]]]).

(** [button_callback] (lines 127-150).  The reminder time computed at the
    end of the second branch is not used and is left out. *)
Definition button_callback (b : bot) (uid : Z) (data : string) (now : Z)
  : bot * outcome :=
  if bool_decide (data ∈ ["daily"; "weekly"]) then
    (Bot (db b)
         (<[uid := <["frequency" := data]> (user_data_of b uid)]> (user_data b)),
     Sent [Message (FrequencyChosen data) []])
  else if String.prefix "complete_" data then
    match split "_" data !! 1%nat ≫= py_int with
    | Some challenge_id =>
        (Bot (record_completion (db b) uid challenge_id now) (user_data b),
         Sent [Message MarkedComplete []])
    | None => (b, Raised ValueError)
    end
  else (b, Sent []).

(** [receive_challenge] (lines 152-173) *)
Definition receive_challenge (b : bot) (uid : Z) (challenge_text : string)
    (now : Z) : bot * outcome :=
  match user_data_of b uid !! "frequency" with
  | None => (b, Sent [Message UseStartFirst []])
  | Some frequency =>
      (Bot (add_challenge (db b) uid challenge_text frequency now)
           (<[uid := ∅]> (user_data b)),
       Sent [Message (ChallengeSet frequency challenge_text) []])
  end.

(** [check_progress] (lines 175-198).  A row returned by [fetchone] is a
    non-empty tuple, hence true; only [None] takes the first branch. *)
Definition check_progress (b : bot) (uid : Z) : bot * outcome :=
  match get_active_challenge (db b) uid with
  | None => (b, Sent [Message NoActiveChallenge []])
  | Some (challenge_id, challenge_text, frequency) =>
      (b, Sent [Message (DidYouComplete frequency challenge_text)
                  [[Button "✅ Yes, completed!" ("complete_" +:+ pretty challenge_id);
                    Button "❌ Not yet" "not_complete"]]])
  end.

Definition medal_of (i : nat) : medal :=
  match i with
  | 1%nat => Gold
  | 2%nat => Silver
  | 3%nat => Bronze
  | _ => Person
  end.

(** [stats] (lines 200-215) *)
Definition stats (b : bot) (now : Z) : bot * outcome :=
  match get_monthly_stats (db b) now with
  | [] => (b, Sent [Message NoStatistics []])
  | rows =>
      (b, Sent [Message
                  (Leaderboard
                     (imap (λ i '(first_name, username, count),
                              (medal_of (S i),
                               py_or first_name (py_or username "Unknown"),
                               count)) rows))
                  []])
  end.

(** The updates that [main] routes to the handlers (lines 233-243). *)
Inductive update :=
  | StartCommand (uid : Z) (uname : option string) (fname : string)
  | CheckCommand (uid : Z)
  | StatsCommand
  | CallbackQuery (uid : Z) (data : string)
  | TextMessage (uid : Z) (txt : string).

Definition handle (b : bot) (u : update) (now : Z) : bot * outcome :=
  match u with
  | StartCommand uid uname fname => start b uid uname fname
  | CheckCommand uid => check_progress b uid
  | StatsCommand => stats b now
  | CallbackQuery uid data => button_callback b uid data now
  | TextMessage uid txt => receive_challenge b uid txt now
  end.

(** The polling loop: updates are handled one at a time, each at its own
    instant; an exception ends the update, not the loop. *)
Definition run_bot (b : bot) (us : list (update * Z)) : bot :=
  foldl (λ b '(u, now), fst (handle b u now)) b us.

(** ** The storage operations as a transition system *)

Inductive operation :=
  | RegisterUser (uid : Z) (uname fname : option string)
  | SetChallenge (uid : Z) (text freq : string) (now : Z)
  | RecordCompletion (uid cid : Z) (now : Z)
  | MonthlyLeaderboard (now : Z).

(** [get_monthly_stats] only reads. *)
Definition apply_operation (d : database) (op : operation) : database :=
  match op with
  | RegisterUser uid uname fname => add_user d uid uname fname
  | SetChallenge uid text freq now => add_challenge d uid text freq now
  | RecordCompletion uid cid now => record_completion d uid cid now
  | MonthlyLeaderboard now => d
  end.

Definition run (ops : list operation) (d : database) : database :=
  foldl apply_operation d ops.

(** Number of rows of challenges with active = 1 for a user. *)
Definition active_count (d : database) (uid : Z) : nat :=
  length (filter (λ c, ch_user_id c = uid ∧ active c = true) (challenges d)).

(** PRIMARY KEY of users: no two rows share a user_id. *)
Definition users_pk (d : database) : Prop := NoDup (user_id <$> users d).

(** ** Notions used to state the properties *)

(** A challenge row [c'] is the row [c], with at most its [active] flag
    cleared. *)
Definition same_challenge (c c' : challenge_row) : Prop :=
  ch_id c' = ch_id c ∧ ch_user_id c' = ch_user_id c ∧
  challenge_text c' = challenge_text c ∧ frequency c' = frequency c ∧
  created_at c' = created_at c ∧ (active c' = true → active c = true).

(** The count the leaderboard shows for a user: the completion rows of the
    user that are younger than thirty days. *)
Definition in_window_count (d : database) (now uid : Z) : Z :=
  Z.of_nat (length (filter (λ c, co_user_id c = uid ∧
                                 now - thirty_days < completed_at c)
                      (completions d))).

(** The group of a user row under the primary key. *)
Definition stat_of (u : user_row) (cs : list completion_row) (cutoff : Z)
  : stat_row :=
  StatRow (user_id u) (first_name u) (username u)
          (Z.of_nat (length (on_rows u cs cutoff))).

(** All characters of a string satisfy [P]. *)
Fixpoint string_Forall (P : ascii → Prop) (s : string) : Prop :=
  match s with
  | EmptyString => True
  | String c s' => P c ∧ string_Forall P s'
  end.

(** Characters that [int] does not skip and [split('_')] does not cut at. *)
Definition plain (c : ascii) : Prop := py_isspace c = false ∧ c ≠ "_"%char.

Definition digit (c : ascii) : Prop := is_Some (digit_value c).

(** The frequencies offered by the keyboard of [start]. *)
Definition offered (f : string) : Prop := f ∈ ["daily"; "weekly"].

(** Every frequency kept in a [user_data] dictionary or in a challenge row
    is one of the two offered. *)
Definition frequencies_offered (b : bot) : Prop :=
  (∀ uid ud f, user_data b !! uid = Some ud → ud !! "frequency" = Some f →
               offered f) ∧
  Forall (λ c, offered (frequency c)) (challenges (db b)).

(** ** Scenarios *)

Definition day : Z := 86400 * 1000000.

(** User A (id 20) with five completions, on days 1, 10, 11, 25 and 39,
    and user B (id 10) with none.  Seen from day 40 the window opens on
    day 10: three completions of A are inside, those of days 1 and 10 are
    not. *)
Definition leaderboard_scenario : database :=
  run [RegisterUser 10 (Some "b") (Some "B");
       RegisterUser 20 (Some "a") (Some "A");
       SetChallenge 20 "10 pushups" "daily" 0;
       RecordCompletion 20 1 (1 * day);
       RecordCompletion 20 1 (10 * day);
       RecordCompletion 20 1 (11 * day);
       RecordCompletion 20 1 (25 * day);
       RecordCompletion 20 1 (39 * day)] init_db.

Definition leaderboard_now : Z := 40 * day.

(** User 1 sets up a daily challenge through the chat. *)
Definition pushups_bot : bot :=
  run_bot init_bot
    [(StartCommand 1 (Some "u1") "U1", 0);
     (CallbackQuery 1 "daily", 1);
     (TextMessage 1 "10 pushups", 2)].

(** ... and later replaces it by a weekly one. *)
Definition squats_bot : bot :=
  run_bot pushups_bot
    [(CallbackQuery 1 "weekly", 3);
     (TextMessage 1 "20 squats", 4)].

(** A challenges table in which two rows of user 1 are active. *)
Definition two_active : database :=
  {| users := [UserRow 1 (Some "u1") (Some "U1")];
     challenges := [ChallengeRow 1 1 "10 pushups" "daily" 0 true;
                    ChallengeRow 2 1 "20 squats" "weekly" 1 true];
     completions := [];
     challenges_seq := 2;
     completions_seq := 0 |}.

(** ** Further notions *)

(** The operation is an [add_challenge] for the user. *)
Definition sets_challenge_of (uid : Z) (op : operation) : Prop :=
  match op with
  | SetChallenge u _ _ _ => u = uid
  | _ => False
  end.

(** The user an update comes from ([update.effective_user], or
    [query.from_user] for a pressed button), where the handler looks at
    it. *)
Definition sender (u : update) : option Z :=
  match u with
  | StartCommand uid _ _ => Some uid
  | CheckCommand uid => Some uid
  | StatsCommand => None
  | CallbackQuery uid _ => Some uid
  | TextMessage uid _ => Some uid
  end.

(** [sep.join(pieces)] *)
Fixpoint join (sep : ascii) (pieces : list string) : string :=
  match pieces with
  | [] => EmptyString
  | [w] => w
  | w :: ws => w +:+ String sep (join sep ws)
  end.

(** A group with one more completion counted for the user. *)
Definition count_one_more (uid : Z) (g : stat_row) : stat_row :=
  if bool_decide (st_user_id g = uid)
  then StatRow (st_user_id g) (st_first_name g) (st_username g)
               (completion_count g + 1)
  else g.

(** Rowid order of the users table. *)
Definition by_user_id (x y : user_row) : Prop := user_id x < user_id y.

(** A string of the characters that [int] skips. *)
Definition spaces (s : string) : Prop :=
  string_Forall (λ c, py_isspace c = true) s.

(** The buttons of the keyboards that a handler sent. *)
Definition buttons (o : outcome) : list button :=
  match o with
  | Sent msgs => m ← msgs; concat (reply_markup m)
  | Raised _ => []
  end.

(** * Properties *)

(** ** Sample runs *)

(** A small run to see the helpers at work. *)
Example stats_run :
  let db := add_user (add_user init_db 7 (Some "bo") (Some "Bo"))
              3 None (Some "Al") in
  let db := add_challenge db 7 "10 pushups" "daily" 100 in
  let db := record_completion db 7 1 200 in
  let db := record_completion db 7 1 (200 + thirty_days) in
  get_monthly_stats db (201 + thirty_days)
  = [(Some "Bo", Some "bo", 1); (Some "Al", None, 0)].
Proof. vm_compute. reflexivity. Qed.

Example split_complete : split "_" "complete_12" = ["complete"; "12"].
Proof. reflexivity. Qed.
Example split_not_complete : split "_" "not_complete" = ["not"; "complete"].
Proof. reflexivity. Qed.
Example py_int_12 : py_int " 012 " = Some 12.
Proof. reflexivity. Qed.
Example py_int_neg : py_int "-7" = Some (-7).
Proof. reflexivity. Qed.
Example py_int_bad : py_int "1x" = None ∧ py_int "" = None ∧ py_int "+" = None.
Proof. repeat split; reflexivity. Qed.
Example py_int_arabic_indic : py_int " ٣٤" = Some 34.
Proof. reflexivity. Qed.
Example py_int_separator : py_int (String (ascii_of_N 28) "5") = None.
Proof. reflexivity. Qed.

(** Users without completion stay in the order of their ids. *)
Example stats_ties :
  get_monthly_stats
    (run [RegisterUser 5 None (Some "E"); RegisterUser 3 None (Some "C");
          RegisterUser 9 None (Some "I"); RecordCompletion 9 1 5] init_db) 6
  = [(Some "I", None, 1); (Some "C", None, 0); (Some "E", None, 0)].
Proof. vm_compute. reflexivity. Qed.

Example check_then_complete :
  let b := run_bot init_bot
             [(StartCommand 7 (Some "bo") "Bo", 1);
              (CallbackQuery 7 "daily", 2);
              (TextMessage 7 "35 pushups per day", 3)] in
  snd (check_progress b 7)
  = Sent [Message (DidYouComplete "daily" "35 pushups per day")
            [[Button "✅ Yes, completed!" "complete_1";
              Button "❌ Not yet" "not_complete"]]]
  ∧ completions (db (run_bot b [(CallbackQuery 7 "complete_1", 4)]))
    = [CompletionRow 1 7 1 4].
Proof. split; vm_compute; reflexivity. Qed.

(** ** AUTOINCREMENT ids are fresh *)

Lemma max_id_ge ids i : i ∈ ids → i ≤ max_id ids.
Proof.
  induction 1 as [i ids|i j ids _ IH]; simpl; lia.
Qed.

Lemma next_id_fresh seq ids i : i ∈ ids → i < next_id seq ids.
Proof. intros Hi%max_id_ge. unfold next_id. lia. Qed.

Lemma next_id_above_seq seq ids : seq < next_id seq ids.
Proof. unfold next_id. lia. Qed.

(** ** The users table *)

Section users_table.
Implicit Types (r x : user_row) (l : list user_row) (uid : Z).

Lemma insert_user_row_perm r l : insert_user_row r l ≡ₚ r :: l.
Proof.
  induction l as [|x l IH]; simpl; [done|].
  case_bool_decide; [done|].
  rewrite IH. apply Permutation_swap.
Qed.

Lemma elem_of_insert_user_row r x l :
  x ∈ insert_user_row r l ↔ x = r ∨ x ∈ l.
Proof. rewrite insert_user_row_perm. apply elem_of_cons. Qed.

(** Rows of other users pass through an insertion unchanged, in order. *)
Lemma filter_ne_insert_user_row r l :
  filter (λ x, user_id x ≠ user_id r) (insert_user_row r l)
  = filter (λ x, user_id x ≠ user_id r) l.
Proof.
  induction l as [|x l IH]; simpl.
  - rewrite filter_cons_False; [done|]. naive_solver.
  - case_bool_decide.
    + rewrite (filter_cons_False _ r); [done|]. naive_solver.
    + rewrite !filter_cons, IH. done.
Qed.

(** After the conflicting rows are deleted, the inserted row is the only
    one with its user_id. *)
Lemma filter_eq_insert_fresh r l :
  Forall (λ x, user_id x ≠ user_id r) l →
  filter (λ x, user_id x = user_id r) (insert_user_row r l) = [r].
Proof.
  intros Hl.
  assert (filter (λ x, user_id x = user_id r) l = []) as Hnil.
  { induction Hl as [|x l Hx _ IH]; [done|].
    by rewrite filter_cons_False. }
  induction Hl as [|x l Hx Hl IH]; simpl.
  - by rewrite filter_cons_True.
  - rewrite filter_cons_False in Hnil by done.
    case_bool_decide.
    + rewrite filter_cons_True, filter_cons_False, Hnil; done.
    + rewrite filter_cons_False by done. auto.
Qed.

Lemma filter_eq_insert_user_row r l :
  filter (λ x, user_id x = user_id r)
    (insert_user_row r (filter (λ x, user_id x ≠ user_id r) l)) = [r].
Proof.
  apply filter_eq_insert_fresh, Forall_forall.
  by intros x [? _]%list_elem_of_filter.
Qed.

Lemma filter_ne_idemp uid l :
  filter (λ x, user_id x ≠ uid) (filter (λ x, user_id x ≠ uid) l)
  = filter (λ x, user_id x ≠ uid) l.
Proof.
  induction l as [|x l IH]; [done|].
  rewrite filter_cons. case_decide; [|done].
  rewrite filter_cons_True by done. by rewrite IH.
Qed.

Lemma NoDup_insert_user_row r l :
  NoDup (user_id <$> l) →
  NoDup (user_id <$> insert_user_row r (filter (λ x, user_id x ≠ user_id r) l)).
Proof.
  intros Hl. rewrite insert_user_row_perm. simpl.
  apply NoDup_cons. split.
  - intros (x & Hx & [Hne _]%list_elem_of_filter)%list_elem_of_fmap. done.
  - eapply sublist_NoDup; [exact Hl|].
    apply fmap_sublist, sublist_filter.
Qed.
End users_table.

Lemma run_app ops1 ops2 d : run (ops1 ++ ops2) d = run ops2 (run ops1 d).
Proof. apply foldl_app. Qed.

Lemma users_pk_apply d op : users_pk d → users_pk (apply_operation d op).
Proof.
  unfold users_pk. destruct op; simpl; try done.
  apply (NoDup_insert_user_row (UserRow uid uname fname)).
Qed.

Lemma users_pk_run ops d : users_pk d → users_pk (run ops d).
Proof.
  revert d. induction ops as [|op ops IH]; intros d Hd; [done|].
  apply IH, users_pk_apply, Hd.
Qed.

Lemma users_pk_init : users_pk init_db.
Proof. constructor. Qed.

(** ** The challenges table *)

Section challenges_table.
Implicit Types (c : challenge_row) (l : list challenge_row) (uid : Z).

Lemma deactivate_same uid c :
  ch_user_id c = uid → active (deactivate uid c) = false.
Proof. intros. unfold deactivate. by rewrite bool_decide_eq_true_2. Qed.

Lemma deactivate_other uid c : ch_user_id c ≠ uid → deactivate uid c = c.
Proof. intros. unfold deactivate. by rewrite bool_decide_eq_false_2. Qed.

Lemma deactivate_user uid c : ch_user_id (deactivate uid c) = ch_user_id c.
Proof. unfold deactivate. by case_bool_decide. Qed.

(** The UPDATE leaves the user without active row ... *)
Lemma filter_active_deactivate_same uid l :
  filter (λ c, ch_user_id c = uid ∧ active c = true) (deactivate uid <$> l)
  = [].
Proof.
  induction l as [|c l IH]; [done|]. csimpl.
  rewrite filter_cons_False; [done|].
  intros [Hu Ha]. rewrite deactivate_user in Hu.
  by rewrite deactivate_same in Ha.
Qed.

(** ... and does not touch the rows of other users. *)
Lemma filter_active_deactivate_other uid uid' l :
  uid' ≠ uid →
  filter (λ c, ch_user_id c = uid' ∧ active c = true) (deactivate uid <$> l)
  = filter (λ c, ch_user_id c = uid' ∧ active c = true) l.
Proof.
  intros Hne. induction l as [|c l IH]; [done|]. csimpl.
  destruct (decide (ch_user_id c = uid)) as [Hc|Hc].
  - rewrite !filter_cons_False; [done|..].
    + intros [? _]. congruence.
    + intros [Hu _]. rewrite deactivate_user in Hu. congruence.
  - rewrite deactivate_other by done. rewrite !filter_cons, IH. done.
Qed.

Lemma active_count_add_challenge_same d uid text freq now :
  active_count (add_challenge d uid text freq now) uid = 1%nat.
Proof.
  unfold active_count, add_challenge; simpl.
  rewrite filter_app, filter_active_deactivate_same.
  by rewrite filter_cons_True.
Qed.

Lemma active_count_add_challenge_other d uid uid' text freq now :
  uid' ≠ uid →
  active_count (add_challenge d uid text freq now) uid' = active_count d uid'.
Proof.
  intros Hne. unfold active_count, add_challenge; simpl.
  rewrite filter_app, filter_active_deactivate_other by done.
  rewrite filter_cons_False, filter_nil, app_nil_r; [done|].
  simpl. intros [? _]. congruence.
Qed.

Lemma active_count_apply d op uid :
  (active_count d uid ≤ 1)%nat →
  (active_count (apply_operation d op) uid ≤ 1)%nat.
Proof.
  intros Hd. destruct op as [| u text freq now | |]; simpl; try done.
  destruct (decide (uid = u)) as [->|Hne].
  - by rewrite active_count_add_challenge_same.
  - by rewrite active_count_add_challenge_other.
Qed.

Lemma active_count_run ops d uid :
  (active_count d uid ≤ 1)%nat → (active_count (run ops d) uid ≤ 1)%nat.
Proof.
  revert d. induction ops as [|op ops IH]; intros d Hd; [done|].
  apply IH, active_count_apply, Hd.
Qed.

(** After [add_challenge] the query for the user's active challenge has
    exactly one row, the new one. *)
Lemma select_active_add_challenge d uid text freq now :
  select_active (add_challenge d uid text freq now) uid
  = [(challenges_seq (add_challenge d uid text freq now), text, freq)].
Proof.
  unfold select_active, add_challenge; simpl.
  rewrite filter_app, filter_active_deactivate_same.
  by rewrite filter_cons_True.
Qed.

Lemma ch_id_deactivate uid l : ch_id <$> (deactivate uid <$> l) = ch_id <$> l.
Proof.
  rewrite <-list_fmap_compose. apply list_fmap_ext.
  intros _ c _. simpl. unfold deactivate. by case_bool_decide.
Qed.

(** The id of a new challenge is larger than every id in the table. *)
Lemma add_challenge_id_fresh d uid text freq now c :
  c ∈ challenges d → ch_id c < challenges_seq (add_challenge d uid text freq now).
Proof.
  intros Hc. simpl. apply next_id_fresh.
  rewrite ch_id_deactivate. by apply list_elem_of_fmap_2.
Qed.

Lemma same_challenge_refl c : same_challenge c c.
Proof. by repeat split. Qed.

Lemma same_challenge_deactivate uid c : same_challenge c (deactivate uid c).
Proof. unfold deactivate. case_bool_decide; by repeat split. Qed.

Lemma same_challenge_trans c1 c2 c3 :
  same_challenge c1 c2 → same_challenge c2 c3 → same_challenge c1 c3.
Proof.
  intros (?&?&?&?&?&?) (?&?&?&?&?&?).
  repeat split; try congruence. auto.
Qed.

Lemma challenge_kept_apply d op c :
  c ∈ challenges d →
  ∃ c', c' ∈ challenges (apply_operation d op) ∧ same_challenge c c'.
Proof.
  intros Hc. destruct op as [| u text freq now | |]; simpl;
    try (exists c; split; [done|apply same_challenge_refl]).
  exists (deactivate u c). split; [|apply same_challenge_deactivate].
  apply elem_of_app. left. by apply list_elem_of_fmap_2.
Qed.

Lemma challenge_kept_run ops d c :
  c ∈ challenges d →
  ∃ c', c' ∈ challenges (run ops d) ∧ same_challenge c c'.
Proof.
  revert d c. induction ops as [|op ops IH]; intros d c Hc.
  - exists c. split; [done|apply same_challenge_refl].
  - destruct (challenge_kept_apply d op c Hc) as (c1 & Hc1 & H1).
    destruct (IH _ _ Hc1) as (c2 & Hc2 & H2).
    exists c2. split; [done|]. by eapply same_challenge_trans.
Qed.
End challenges_table.

(** ** The leaderboard query *)

Section leaderboard.
Implicit Types (u : user_row) (us : list user_row)
  (cs : list completion_row) (cutoff : Z)
  (j : list (user_row * option completion_row)).

Lemma join_rows_fst u cs cutoff :
  Forall (λ p, fst p = u) (join_rows u cs cutoff).
Proof.
  unfold join_rows. destruct (on_rows u cs cutoff) as [|c m].
  - by repeat constructor.
  - apply Forall_fmap, Forall_true. done.
Qed.

Lemma join_rows_cons u cs cutoff :
  ∃ c g, join_rows u cs cutoff = (u, c) :: g.
Proof.
  unfold join_rows. destruct (on_rows u cs cutoff) as [|c m]; csimpl; eauto.
Qed.

(** COUNT(c.id) over the rows of one user is the number of matching
    completion rows: the NULL row of a user without match counts 0. *)
Lemma count_c_id_join_rows u cs cutoff :
  count_c_id (join_rows u cs cutoff)
  = Z.of_nat (length (on_rows u cs cutoff)).
Proof.
  unfold count_c_id, join_rows. f_equal.
  destruct (on_rows u cs cutoff) as [|c m]; [done|].
  generalize (c :: m). intros l. induction l as [|x l IH]; [done|].
  rewrite fmap_cons, filter_cons_True by (simpl; eauto). simpl. by rewrite IH.
Qed.

Lemma left_join_cons u us cs cutoff :
  left_join (u :: us) cs cutoff
  = join_rows u cs cutoff ++ left_join us cs cutoff.
Proof. done. Qed.

(** The user ids that occur in the join are those of the users table. *)
Lemma elem_of_left_join_keys us cs cutoff k :
  k ∈ (user_id ∘ fst <$> left_join us cs cutoff) ↔ k ∈ (user_id <$> us).
Proof.
  induction us as [|u us IH]; [done|].
  rewrite left_join_cons, fmap_app, elem_of_app, IH. csimpl.
  rewrite elem_of_cons.
  destruct (join_rows_cons u cs cutoff) as (c & g & Hj).
  pose proof (join_rows_fst u cs cutoff) as Hfst.
  split; (intros [Hk|Hk]; [left|by right]).
  - apply list_elem_of_fmap in Hk as (p & -> & Hp).
    rewrite Forall_forall in Hfst. simpl. by rewrite (Hfst p Hp).
  - subst k. rewrite Hj. csimpl. apply elem_of_cons. by left.
Qed.

(** The rows of the join with a given user id are the join rows of the
    user rows with that id. *)
Lemma filter_left_join us cs cutoff k :
  filter (λ p, user_id (fst p) = k) (left_join us cs cutoff)
  = filter (λ u, user_id u = k) us ≫= (λ u, join_rows u cs cutoff).
Proof.
  induction us as [|u us IH]; [done|].
  rewrite left_join_cons, filter_app, IH.
  pose proof (join_rows_fst u cs cutoff) as Hfst.
  destruct (decide (user_id u = k)) as [Hk|Hk].
  - rewrite (filter_cons_True _ u) by done. csimpl. f_equal.
    induction Hfst as [|p l Hp _ IHl]; [done|].
    rewrite filter_cons_True by (by rewrite Hp). by rewrite IHl.
  - rewrite (filter_cons_False _ u) by done.
    replace (filter _ (join_rows u cs cutoff)) with
      (@nil (user_row * option completion_row)); [done|].
    induction Hfst as [|p l Hp _ IHl]; [done|].
    rewrite filter_cons_False by (by rewrite Hp). done.
Qed.

Lemma filter_key_cons j k :
  k ∈ (user_id ∘ fst <$> j) →
  ∃ u c g, filter (λ p, user_id (fst p) = k) j = (u, c) :: g.
Proof.
  intros (p & Hk & Hp)%list_elem_of_fmap.
  assert (p ∈ filter (λ p, user_id (fst p) = k) j) as Hin.
  { apply list_elem_of_filter. by split. }
  destruct (filter _ j) as [|[u c] g]; [by apply elem_of_nil in Hin|eauto].
Qed.

(** GROUP BY yields exactly one row for each user id of the join. *)
Lemma group_by_user_keys j :
  st_user_id <$> group_by_user j = remove_dups (user_id ∘ fst <$> j).
Proof.
  unfold group_by_user.
  assert (∀ k, k ∈ remove_dups (user_id ∘ fst <$> j) →
               k ∈ (user_id ∘ fst <$> j)) as Hin.
  { intros k. by rewrite elem_of_remove_dups. }
  induction (remove_dups (user_id ∘ fst <$> j)) as [|k ks IH]; [done|].
  csimpl. rewrite fmap_app, IH by (intros; apply Hin; by right).
  destruct (filter_key_cons j k) as (u & c & g & ->); [apply Hin; by left|].
  done.
Qed.

Lemma remove_dups_block (x : Z) (blk l : list Z) :
  blk ≠ [] → Forall (λ y, y = x) blk → x ∉ l →
  remove_dups (blk ++ l) = x :: remove_dups l.
Proof.
  intros Hne Hblk Hx. induction Hblk as [|y blk -> Hblk IH]; [done|].
  change (remove_dups ((x :: blk) ++ l)) with
    (if decide_rel elem_of x (blk ++ l) then remove_dups (blk ++ l)
     else x :: remove_dups (blk ++ l)).
  destruct (decide_rel elem_of x (blk ++ l)) as [Hin|Hin].
  - destruct blk as [|z blk]; [done|]. by apply IH.
  - destruct blk as [|z blk]; [done|].
    apply Forall_cons in Hblk as [-> _]. exfalso. apply Hin. by left.
Qed.

(** Under the primary key the groups are the user rows, in table order. *)
Lemma left_join_keys_pk us cs cutoff :
  NoDup (user_id <$> us) →
  remove_dups (user_id ∘ fst <$> left_join us cs cutoff) = user_id <$> us.
Proof.
  induction us as [|u us IH]; [done|].
  rewrite fmap_cons. intros [Hu Hus]%NoDup_cons.
  rewrite left_join_cons, fmap_app.
  rewrite (remove_dups_block (user_id u)).
  - by rewrite IH.
  - destruct (join_rows_cons u cs cutoff) as (c & g & ->). done.
  - apply Forall_fmap. eapply Forall_impl; [apply join_rows_fst|].
    intros p Hp. simpl in *. by rewrite Hp.
  - by rewrite elem_of_left_join_keys.
Qed.

Lemma filter_user_id_pk us u :
  NoDup (user_id <$> us) → u ∈ us →
  filter (λ x, user_id x = user_id u) us = [u].
Proof.
  induction us as [|v us IH]; csimpl; [by intros _ ?%elem_of_nil|].
  intros [Hv Hus]%NoDup_cons [->|Hu]%elem_of_cons.
  - rewrite filter_cons_True by done. f_equal.
    clear IH Hus. induction us as [|w us IH]; [done|].
    csimpl in Hv. apply not_elem_of_cons in Hv as [Hw Hv].
    rewrite filter_cons_False by done. auto.
  - rewrite filter_cons_False; [by apply IH|].
    intros Heq. apply Hv. rewrite Heq. by apply list_elem_of_fmap_2.
Qed.

Lemma bind_singleton_ext {A B} (f : A → list B) (h : A → B) (l : list A) :
  Forall (λ x, f x = [h x]) l → l ≫= f = h <$> l.
Proof. induction 1 as [|x l Hx _ IH]; [done|]. csimpl. by rewrite Hx, IH. Qed.

Lemma group_by_user_pk us cs cutoff :
  NoDup (user_id <$> us) →
  group_by_user (left_join us cs cutoff)
  = (λ u, stat_of u cs cutoff) <$> us.
Proof.
  intros Hpk. unfold group_by_user.
  rewrite left_join_keys_pk, list_fmap_bind by done.
  apply bind_singleton_ext, Forall_forall.
  intros u Hu. simpl.
  rewrite filter_left_join, filter_user_id_pk by done.
  csimpl. rewrite app_nil_r.
  destruct (join_rows_cons u cs cutoff) as (c & g & Hj).
  rewrite Hj, <-Hj, count_c_id_join_rows. done.
Qed.

Lemma on_rows_length d now u :
  Z.of_nat (length (on_rows u (completions d) (now - thirty_days)))
  = in_window_count d now (user_id u).
Proof.
  unfold in_window_count, on_rows. do 2 f_equal.
  apply list_filter_iff. intros c. split; intros [? ?]; by split.
Qed.

Lemma insert_by_count_perm (g : stat_row) (l : list stat_row) :
  insert_by_count g l ≡ₚ g :: l.
Proof.
  induction l as [|x l IH]; simpl; [done|].
  case_bool_decide; [done|]. rewrite IH. apply Permutation_swap.
Qed.

Lemma order_by_count_desc_perm (l : list stat_row) :
  order_by_count_desc l ≡ₚ l.
Proof.
  induction l as [|g l IH]; simpl; [done|].
  by rewrite insert_by_count_perm, IH.
Qed.

Lemma insert_by_count_sorted (g : stat_row) (l : list stat_row) :
  StronglySorted count_desc l → StronglySorted count_desc (insert_by_count g l).
Proof.
  induction 1 as [|x l Hl IH Hx]; simpl; [by repeat constructor|].
  case_bool_decide as Hle.
  - constructor; [by constructor|].
    constructor; [done|].
    eapply Forall_impl; [exact Hx|].
    intros y Hy. unfold count_desc in *. lia.
  - constructor; [done|].
    apply Forall_forall. intros y Hy.
    rewrite insert_by_count_perm in Hy.
    apply elem_of_cons in Hy as [->|Hy].
    + unfold count_desc. lia.
    + rewrite Forall_forall in Hx. auto.
Qed.

Lemma order_by_count_desc_sorted (l : list stat_row) :
  StronglySorted count_desc (order_by_count_desc l).
Proof.
  induction l as [|g l IH]; simpl; [constructor|].
  by apply insert_by_count_sorted.
Qed.

Lemma monthly_groups_perm d now :
  monthly_groups d now
  ≡ₚ group_by_user (left_join (users d) (completions d) (now - thirty_days)).
Proof. apply order_by_count_desc_perm. Qed.

Lemma monthly_groups_sorted d now :
  StronglySorted count_desc (monthly_groups d now).
Proof. apply order_by_count_desc_sorted. Qed.

(** The groups of the result carry pairwise different user ids, namely
    those of the users table. *)
Lemma monthly_groups_NoDup d now :
  NoDup (st_user_id <$> monthly_groups d now).
Proof.
  rewrite monthly_groups_perm, group_by_user_keys.
  apply NoDup_remove_dups.
Qed.

Lemma elem_of_monthly_groups_ids d now k :
  k ∈ (st_user_id <$> monthly_groups d now) ↔ k ∈ (user_id <$> users d).
Proof.
  rewrite monthly_groups_perm, group_by_user_keys, elem_of_remove_dups.
  apply elem_of_left_join_keys.
Qed.

Lemma length_filter_NoDup {A} (f : A → Z) (l : list A) k :
  NoDup (f <$> l) → k ∈ (f <$> l) →
  length (filter (λ g, f g = k) l) = 1%nat.
Proof.
  induction l as [|x l IH]; csimpl; [by intros _ ?%elem_of_nil|].
  intros [Hx Hl]%NoDup_cons Hk.
  destruct (decide (f x = k)) as [<-|Hne].
  - rewrite filter_cons_True by done. simpl. f_equal.
    apply length_zero_iff_nil.
    destruct (filter _ l) as [|y l'] eqn:Hf; [done|exfalso].
    assert (y ∈ filter (λ g, f g = f x) l) as Hy by (rewrite Hf; by left).
    apply list_elem_of_filter in Hy as [Hy Hyl].
    apply Hx. rewrite <-Hy. by apply list_elem_of_fmap_2.
  - rewrite filter_cons_False by done. apply IH; [done|].
    apply elem_of_cons in Hk as [?|?]; [congruence|done].
Qed.
End leaderboard.

(** ** Callback data: [f'complete_{challenge_id}'] and back *)

Section callback_data.
Implicit Types (c : ascii) (s : string).

Lemma string_Forall_impl (P Q : ascii → Prop) s :
  (∀ c, P c → Q c) → string_Forall P s → string_Forall Q s.
Proof. intros HPQ. induction s; simpl; [done|]. intros [? ?]. auto. Qed.

Lemma digit_plain c : digit c → plain c.
Proof.
  unfold digit, plain, digit_value, py_isspace.
  case_bool_decide as Hd; [intros _|by intros [? ?]].
  split.
  - apply bool_decide_eq_false_2. lia.
  - intros ->. vm_compute in Hd. by destruct Hd as [_ []].
Qed.

Lemma digit_not_sign c : digit c → c ≠ "-"%char ∧ c ≠ "+"%char.
Proof.
  intros [d Hd]. split; intros ->; vm_compute in Hd; discriminate.
Qed.

Lemma digit_value_pretty_N_char (x : N) :
  (x < 10)%N → digit_value (pretty_N_char x) = Some (Z.of_N x).
Proof.
  intros Hx. destruct x as [|p]; [done|].
  do 4 (destruct p as [p|p|]; try lia; try reflexivity).
Qed.

(** Reading back the digits that [pretty] wrote. *)
Lemma digits_value_pretty_N_go (x : N) s :
  digits_value 0 (pretty_N_go x s) = digits_value (Z.of_N x) s.
Proof.
  revert s. induction (N.lt_wf_0 x) as [x _ IH]; intros s.
  destruct (decide (x = 0%N)) as [->|Hx]; [done|].
  rewrite pretty_N_go_step by lia.
  rewrite IH by (apply N.div_lt; lia). simpl.
  rewrite digit_value_pretty_N_char by (apply N.mod_lt; lia). simpl.
  f_equal. pose proof (N.div_mod x 10). lia.
Qed.

Lemma digits_pretty_N_go (x : N) s :
  string_Forall digit s → string_Forall digit (pretty_N_go x s).
Proof.
  revert s. induction (N.lt_wf_0 x) as [x _ IH]; intros s Hs.
  destruct (decide (x = 0%N)) as [->|Hx]; [done|].
  rewrite pretty_N_go_step by lia.
  apply IH; [apply N.div_lt; lia|]. split; [|done].
  unfold digit. rewrite digit_value_pretty_N_char by (apply N.mod_lt; lia).
  done.
Qed.

Lemma pretty_N_go_nonempty (x : N) s : s ≠ "" → pretty_N_go x s ≠ "".
Proof.
  revert s. induction (N.lt_wf_0 x) as [x _ IH]; intros s Hs.
  destruct (decide (x = 0%N)) as [->|Hx]; [done|].
  rewrite pretty_N_go_step by lia.
  apply IH; [apply N.div_lt; lia|done].
Qed.

(** The decimal text of a positive number: digits, at least one, whose
    value is the number. *)
Lemma pretty_positive_digits (p : positive) :
  ∃ c s, pretty p = String c s ∧ string_Forall digit (String c s) ∧
         digits_value 0 (String c s) = Some (Z.pos p).
Proof.
  assert (pretty p = pretty_N_go (N.pos p) "") as Hp by done.
  assert (pretty p ≠ "") as Hne.
  { rewrite Hp, pretty_N_go_step by lia. by apply pretty_N_go_nonempty. }
  destruct (pretty p) as [|c s] eqn:Hps; [done|].
  exists c, s. split; [done|]. rewrite Hp. split.
  - by apply digits_pretty_N_go.
  - by rewrite digits_value_pretty_N_go.
Qed.

Lemma lstrip_plain c s : plain c → lstrip (String c s) = String c s.
Proof. intros [Hc _]. simpl. by rewrite Hc. Qed.

Lemma rstrip_plain s : string_Forall plain s → rstrip s = s.
Proof.
  induction s as [|c s IH]; [done|]. intros [[Hc _] Hs]. simpl.
  rewrite IH by done. destruct s; [by rewrite Hc|done].
Qed.

Lemma long_from_string_pretty (z : Z) : long_from_string (pretty z) = Some z.
Proof.
  destruct z as [|p|p]; [done|..].
  - change (pretty (Z.pos p)) with (pretty p).
    destruct (pretty_positive_digits p) as (c & s & -> & Hd & Hv).
    pose proof (string_Forall_impl _ _ _ digit_plain Hd) as Hpl.
    unfold long_from_string.
    rewrite lstrip_plain, rstrip_plain by (done || apply Hpl).
    destruct Hd as [Hc _]. apply digit_not_sign in Hc as [? ?].
    by rewrite !bool_decide_eq_false_2.
  - change (pretty (Z.neg p)) with (String "-" (pretty p)).
    destruct (pretty_positive_digits p) as (c & s & -> & Hd & Hv).
    pose proof (string_Forall_impl _ _ _ digit_plain Hd) as Hpl.
    unfold long_from_string.
    rewrite lstrip_plain, rstrip_plain; [|by split|by split].
    rewrite bool_decide_eq_true_2 by done.
    unfold nonempty_digits_value. by rewrite Hv.
Qed.

Lemma py_int_ascii s : is_ascii s = true → py_int s = long_from_string s.
Proof. intros Hs. unfold py_int. by rewrite Hs. Qed.

Lemma is_ascii_digits s : string_Forall digit s → is_ascii s = true.
Proof.
  induction s as [|c s IH]; [done|]. intros [Hc Hs]. simpl.
  rewrite IH by done. rewrite andb_true_r. apply bool_decide_eq_true_2.
  unfold digit, digit_value in Hc.
  case_bool_decide; [lia|by destruct Hc].
Qed.

Lemma is_ascii_pretty (z : Z) : is_ascii (pretty z) = true.
Proof.
  destruct z as [|p|p]; [done|..].
  - change (pretty (Z.pos p)) with (pretty p).
    destruct (pretty_positive_digits p) as (c & s & -> & Hd & _).
    by apply is_ascii_digits.
  - change (pretty (Z.neg p)) with (String "-" (pretty p)).
    destruct (pretty_positive_digits p) as (c & s & -> & Hd & _).
    change (is_ascii (String "-" (String c s)))
      with (true && is_ascii (String c s)).
    by apply is_ascii_digits.
Qed.

(** [int] of the decimal text of an integer is that integer. *)
Lemma py_int_pretty (z : Z) : py_int (pretty z) = Some z.
Proof.
  rewrite py_int_ascii by apply is_ascii_pretty.
  apply long_from_string_pretty.
Qed.

(** The decimal text of an integer has no underscore. *)
Lemma pretty_plain (z : Z) : string_Forall plain (pretty z).
Proof.
  destruct z as [|p|p]; [by repeat split|..].
  - change (pretty (Z.pos p)) with (pretty p).
    destruct (pretty_positive_digits p) as (c & s & -> & Hd & _).
    apply (string_Forall_impl _ _ _ digit_plain Hd).
  - change (pretty (Z.neg p)) with (String "-" (pretty p)).
    destruct (pretty_positive_digits p) as (c & s & -> & Hd & _).
    split; [by split|]. apply (string_Forall_impl _ _ _ digit_plain Hd).
Qed.

Lemma split_plain s : string_Forall plain s → split "_" s = [s].
Proof.
  induction s as [|c s IH]; [done|]. intros [[_ Hc] Hs]. simpl.
  rewrite bool_decide_eq_false_2 by done. by rewrite IH.
Qed.

(** The data of the button that [check_progress] builds is taken apart
    by [button_callback] into the id it was built from. *)
Lemma complete_data_id (k : Z) :
  String.prefix "complete_" ("complete_" +:+ pretty k) = true ∧
  split "_" ("complete_" +:+ pretty k) !! 1%nat ≫= py_int = Some k.
Proof.
  split; [simpl; by destruct (pretty k)|].
  assert (split "_" ("complete_" +:+ pretty k) = ["complete"; pretty k]) as ->.
  { simpl. f_equal. apply (split_plain (pretty k)), pretty_plain. }
  simpl. apply py_int_pretty.
Qed.

Lemma complete_data_not_frequency (k : Z) :
  ("complete_" +:+ pretty k) ∉ ["daily"; "weekly"].
Proof.
  intros [H|[H|H%elem_of_nil]%elem_of_cons]%elem_of_cons; [| |done];
    discriminate H.
Qed.
End callback_data.

(** ** The handlers *)

Section handlers.
Implicit Types (b : bot) (uid k now : Z) (us : list (update * Z)).

(** Pressing a "completed" button records the id written in its data. *)
Lemma button_callback_complete b uid k now :
  button_callback b uid ("complete_" +:+ pretty k) now
  = (Bot (record_completion (db b) uid k now) (user_data b),
     Sent [Message MarkedComplete []]).
Proof.
  unfold button_callback.
  rewrite bool_decide_eq_false_2 by apply complete_data_not_frequency.
  destruct (complete_data_id k) as [-> ->]. done.
Qed.

Lemma run_bot_app b us1 us2 :
  run_bot b (us1 ++ us2) = run_bot (run_bot b us1) us2.
Proof. apply foldl_app. Qed.

Lemma frequency_deactivate uid (c : challenge_row) :
  frequency (deactivate uid c) = frequency c.
Proof. unfold deactivate. by case_bool_decide. Qed.

Lemma frequencies_offered_init : frequencies_offered init_bot.
Proof.
  split; [|constructor]. intros uid ud f Hlook. simpl in Hlook.
  by rewrite lookup_empty in Hlook.
Qed.

Lemma frequencies_offered_handle b (u : update) now :
  frequencies_offered b → frequencies_offered (fst (handle b u now)).
Proof.
  intros [Hud Hch].
  destruct u as [uid uname fname|uid| |uid data|uid txt]; simpl.
  - done.
  - unfold check_progress.
    by destruct (get_active_challenge _ _) as [[[??]?]|].
  - unfold stats. by destruct (get_monthly_stats _ _).
  - unfold button_callback. case_bool_decide as Hdata; simpl.
    + split; [|done]. intros uid' ud f Hlook Hf. simpl in Hlook.
      destruct (decide (uid = uid')) as [->|Hne].
      * rewrite lookup_insert_eq in Hlook. injection Hlook as <-.
        rewrite lookup_insert_eq in Hf. by injection Hf as <-.
      * rewrite lookup_insert_ne in Hlook by done. eauto.
    + destruct (String.prefix _ _); [|done].
      by destruct (_ ≫= py_int).
  - unfold receive_challenge.
    destruct (user_data_of b uid !! "frequency") as [f|] eqn:Hf; [|done].
    simpl. split.
    + intros uid' ud f' Hlook Hf'. simpl in Hlook.
      destruct (decide (uid = uid')) as [->|Hne].
      * rewrite lookup_insert_eq in Hlook. injection Hlook as <-.
        by rewrite lookup_empty in Hf'.
      * rewrite lookup_insert_ne in Hlook by done. eauto.
    + apply Forall_app. split.
      * apply Forall_fmap. eapply Forall_impl; [exact Hch|].
        intros c Hc. simpl. by rewrite frequency_deactivate.
      * apply Forall_singleton. simpl.
        unfold user_data_of in Hf.
        destruct (user_data b !! uid) as [ud|] eqn:Hu; simpl in Hf.
        { eauto. }
        { by rewrite lookup_empty in Hf. }
Qed.

Lemma frequencies_offered_run b us :
  frequencies_offered b → frequencies_offered (run_bot b us).
Proof.
  revert b. induction us as [|[u now] us IH]; intros b Hb; [done|].
  apply IH, frequencies_offered_handle, Hb.
Qed.

(** What the handlers do to the database is made of the storage operations. *)
Lemma handle_operation b (u : update) now :
  ∃ ops, db (fst (handle b u now)) = run ops (db b).
Proof.
  destruct u as [uid uname fname|uid| |uid data|uid txt]; simpl.
  - by exists [RegisterUser uid uname (Some fname)].
  - exists []. unfold check_progress.
    by destruct (get_active_challenge _ _) as [[[??]?]|].
  - exists []. unfold stats. by destruct (get_monthly_stats _ _).
  - unfold button_callback. case_bool_decide; [by exists []|].
    destruct (String.prefix _ _); [|by exists []].
    destruct (_ ≫= py_int) as [cid|]; [|by exists []].
    by exists [RecordCompletion uid cid now].
  - unfold receive_challenge.
    destruct (user_data_of b uid !! "frequency") as [f|]; [|by exists []].
    by exists [SetChallenge uid txt f now].
Qed.

Lemma run_bot_operations b us :
  ∃ ops, db (run_bot b us) = run ops (db b).
Proof.
  revert b. induction us as [|[u now] us IH]; intros b; [by exists []|].
  destruct (handle_operation b u now) as [ops1 H1].
  destruct (IH (fst (handle b u now))) as [ops2 H2].
  exists (ops1 ++ ops2). rewrite run_app, <-H1. exact H2.
Qed.

(** Hence the states the bot goes through inherit what holds after every
    run of storage operations. *)
Lemma run_bot_active_count us uid :
  (active_count (db (run_bot init_bot us)) uid ≤ 1)%nat.
Proof.
  destruct (run_bot_operations init_bot us) as [ops ->].
  apply active_count_run. unfold active_count. simpl. lia.
Qed.

Lemma run_bot_users_pk us : users_pk (db (run_bot init_bot us)).
Proof.
  destruct (run_bot_operations init_bot us) as [ops ->].
  apply users_pk_run, users_pk_init.
Qed.
End handlers.

(** * The properties of the specification *)

(** C1.  In every state reached from the empty database by registering
    users, setting challenges, recording completions and reading the
    leaderboard, each user has at most one active challenge row.  In
    particular [add_challenge] leaves no earlier row of the user active
    and appends one active row for the user. *)
Theorem at_most_one_active_challenge :
  (∀ ops uid, (active_count (run ops init_db) uid ≤ 1)%nat) ∧
  (∀ d uid text freq now,
     ∃ prior new,
       challenges (add_challenge d uid text freq now) = prior ++ [new] ∧
       length prior = length (challenges d) ∧
       filter (λ c, ch_user_id c = uid ∧ active c = true) prior = [] ∧
       ch_user_id new = uid ∧ active new = true).
Proof.
  split.
  - intros ops uid. apply active_count_run. unfold active_count. simpl. lia.
  - intros d uid text freq now.
    eexists _, _. split; [reflexivity|].
    split; [apply length_fmap|].
    split; [apply filter_active_deactivate_same|by split].
Qed.

(** C7.  After a pushups challenge and then a squats challenge are set for
    a user, the query for the active challenge has the squats challenge as
    its only row, and the pushups row is still stored, inactive.  No
    operation removes a challenge row: each row stays, with at most its
    active flag cleared. *)
Theorem second_challenge_replaces_first (d : database) (u1 t1 t2 : Z) :
  let d1 := add_challenge d u1 "10 pushups" "daily" t1 in
  let d2 := add_challenge d1 u1 "20 squats" "weekly" t2 in
  (∃ id1 id2,
     id1 < id2 ∧
     select_active d2 u1 = [(id2, "20 squats", "weekly")] ∧
     get_active_challenge d2 u1 = Some (id2, "20 squats", "weekly") ∧
     ChallengeRow id1 u1 "10 pushups" "daily" t1 false ∈ challenges d2 ∧
     ChallengeRow id2 u1 "20 squats" "weekly" t2 true ∈ challenges d2) ∧
  (∀ d0 ops,
     Forall (λ c, ∃ c', c' ∈ challenges (run ops d0) ∧ same_challenge c c')
       (challenges d0)).
Proof.
  intros d1 d2. split.
  - exists (challenges_seq d1), (challenges_seq d2).
    assert (ChallengeRow (challenges_seq d1) u1 "10 pushups" "daily" t1 true
            ∈ challenges d1) as H1.
    { apply elem_of_app. right. by left. }
    split; [|split; [|split; [|split]]].
    + apply (add_challenge_id_fresh d1 u1 "20 squats" "weekly" t2 _ H1).
    + apply select_active_add_challenge.
    + unfold get_active_challenge, d2.
      by rewrite select_active_add_challenge.
    + apply elem_of_app. left.
      apply (list_elem_of_fmap_2' _ _ _ _ H1).
      unfold deactivate. simpl. by rewrite bool_decide_eq_true_2.
    + apply elem_of_app. right. by left.
  - intros d0 ops. apply Forall_forall. intros c Hc.
    by apply challenge_kept_run.
Qed.

(** C8.  Registering a user id twice leaves exactly one row for that id,
    with the username and first name of the second registration; the rows
    of the other users are as before; the result is the same as that of
    the second registration alone.  No state reached by the operations
    has two user rows with the same id. *)
Theorem add_user_upsert :
  (∀ d uid uname fname uname' fname',
     let d2 := add_user (add_user d uid uname fname) uid uname' fname' in
     filter (λ x, user_id x = uid) (users d2) = [UserRow uid uname' fname'] ∧
     filter (λ x, user_id x ≠ uid) (users d2)
     = filter (λ x, user_id x ≠ uid) (users d) ∧
     d2 = add_user d uid uname' fname') ∧
  (∀ ops, NoDup (user_id <$> users (run ops init_db))).
Proof.
  split.
  - intros d uid uname fname uname' fname' d2. split; [|split].
    + apply (filter_eq_insert_user_row (UserRow uid uname' fname')).
    + unfold d2; simpl.
      rewrite (filter_ne_insert_user_row (UserRow uid uname' fname')).
      rewrite filter_ne_idemp.
      rewrite (filter_ne_insert_user_row (UserRow uid uname fname)).
      apply filter_ne_idemp.
    + unfold d2, add_user; simpl. f_equal. f_equal.
      rewrite (filter_ne_insert_user_row (UserRow uid uname fname)).
      apply filter_ne_idemp.
  - intros ops. apply users_pk_run, users_pk_init.
Qed.

(** C9.  Two calls of [record_completion] in a row, for the same user and
    challenge and at any two instants (equal ones included), append two
    rows; their ids differ from each other and from every id already in
    the table. *)
Theorem record_completion_appends (d : database) (uid cid t1 t2 : Z) :
  ∃ i1 i2,
    completions (record_completion (record_completion d uid cid t1) uid cid t2)
    = completions d
      ++ [CompletionRow i1 uid cid t1; CompletionRow i2 uid cid t2] ∧
    i1 < i2 ∧
    Forall (λ c, co_id c < i1) (completions d).
Proof.
  eexists _, _. split; [|split].
  - simpl. rewrite <-app_assoc. reflexivity.
  - apply next_id_above_seq.
  - apply Forall_forall. intros c Hc. apply next_id_fresh.
    by apply list_elem_of_fmap_2.
Qed.

Lemma Permutation_fmap_inv {A B} (f : A → B) (l1 : list B) (l2 : list A) :
  l1 ≡ₚ f <$> l2 → ∃ l3, l1 = f <$> l3 ∧ l3 ≡ₚ l2.
Proof.
  intros Hperm.
  assert (∀ l, map f l = f <$> l) as Hmap by (by induction l).
  rewrite <-Hmap in Hperm.
  apply Permutation_map_inv in Hperm as (l3 & -> & Hl3).
  exists l3. by rewrite Hmap.
Qed.

Lemma monthly_stats_pk d now :
  users_pk d →
  get_monthly_stats d now
  ≡ₚ (λ u, (first_name u, username u, in_window_count d now (user_id u)))
     <$> users d.
Proof.
  intros Hpk. unfold get_monthly_stats.
  rewrite monthly_groups_perm, group_by_user_pk by done.
  rewrite <-list_fmap_compose.
  erewrite list_fmap_ext; [reflexivity|].
  intros _ u _. simpl. by rewrite on_rows_length.
Qed.

(** C10.  Under the primary key of users, the result of the leaderboard
    query lists the user rows, each exactly once, in some order: it is
    the list of the entries (first name, username, count) of a
    rearrangement of the users table, whatever the number of completion
    rows of a user; so it has as many entries as there are users. *)
Theorem leaderboard_one_entry_per_user (d : database) (now : Z) :
  users_pk d →
  (∃ us, us ≡ₚ users d ∧
         get_monthly_stats d now
         = (λ u, (first_name u, username u,
                  in_window_count d now (user_id u))) <$> us) ∧
  length (get_monthly_stats d now) = length (users d).
Proof.
  intros Hpk.
  destruct (Permutation_fmap_inv _ _ _ (monthly_stats_pk d now Hpk))
    as (us & Hus & Hperm).
  split.
  - by exists us.
  - by rewrite Hus, length_fmap, Hperm.
Qed.

Lemma leaderboard_one_entry_per_user_witness :
  users_pk leaderboard_scenario ∧
  length (get_monthly_stats leaderboard_scenario leaderboard_now)
  = length (users leaderboard_scenario).
Proof.
  assert (users_pk leaderboard_scenario) as Hpk.
  { apply (bool_decide_unpack _). vm_compute. exact I. }
  split; [exact Hpk|].
  exact (proj2 (leaderboard_one_entry_per_user leaderboard_scenario
                  leaderboard_now Hpk)).
Defined.

(** C5.  Under the primary key of users, the leaderboard has one entry for
    every user row, users without completion in the window included; the
    count of an entry is the number of the user's completion rows whose
    instant is greater than now minus thirty days; the entries are in
    non-increasing order of count.  With A having three completions inside
    and two outside the window and B having none, the result is A with 3
    followed by B with 0. *)
Theorem leaderboard_counts :
  (∀ d now,
     users_pk d →
     get_monthly_stats d now
     ≡ₚ (λ u, (first_name u, username u, in_window_count d now (user_id u)))
        <$> users d ∧
     StronglySorted (λ a b, snd b ≤ snd a) (get_monthly_stats d now)) ∧
  length (filter (λ c, co_user_id c = 20) (completions leaderboard_scenario))
  = 5%nat ∧
  in_window_count leaderboard_scenario leaderboard_now 20 = 3 ∧
  get_monthly_stats leaderboard_scenario leaderboard_now
  = [(Some "A", Some "a", 3); (Some "B", Some "b", 0)].
Proof.
  split; [|by vm_compute].
  intros d now Hpk. unfold get_monthly_stats. split.
  - rewrite monthly_groups_perm, group_by_user_pk by done.
    rewrite <-list_fmap_compose.
    erewrite list_fmap_ext; [reflexivity|].
    intros _ u _. simpl. by rewrite on_rows_length.
  - eapply StronglySorted_fmap; [|apply monthly_groups_sorted].
    by intros a b.
Qed.

Lemma leaderboard_counts_witness :
  users_pk leaderboard_scenario ∧
  get_monthly_stats leaderboard_scenario leaderboard_now
  ≡ₚ (λ u, (first_name u, username u,
            in_window_count leaderboard_scenario leaderboard_now (user_id u)))
     <$> users leaderboard_scenario.
Proof.
  assert (users_pk leaderboard_scenario) as Hpk.
  { apply (bool_decide_unpack _). vm_compute. exact I. }
  split; [exact Hpk|].
  apply (proj1 leaderboard_counts leaderboard_scenario leaderboard_now Hpk).
Defined.

(** C2, as stated, fails.  User 1 is shown the prompt for the pushups
    challenge (id 1), then replaces the challenge by the squats challenge
    (id 2), then presses the button of the old prompt: the completion row
    that is written refers to challenge 1, not to the challenge that is
    active when the row is written. *)
Lemma stale_button_records_old_challenge :
  snd (check_progress pushups_bot 1)
  = Sent [Message (DidYouComplete "daily" "10 pushups")
            [[Button "✅ Yes, completed!" "complete_1";
              Button "❌ Not yet" "not_complete"]]] ∧
  get_active_challenge (db squats_bot) 1 = Some (2, "20 squats", "weekly") ∧
  completions (db (fst (button_callback squats_bot 1 "complete_1" 5)))
  = [CompletionRow 1 1 1 5].
Proof. by vm_compute. Qed.

(** C2, amended.  The completion row carries the challenge id given by the
    caller.  The caller, [button_callback], reads it from the data of the
    pressed button, where [check_progress] wrote the id of the challenge
    that was active when the prompt was built; it is recorded as is in
    whatever state the button is pressed. *)
Theorem completion_records_button_id
    (b b' : bot) (uid k : Z) (text freq : string) (now : Z) :
  get_active_challenge (db b) uid = Some (k, text, freq) →
  ∃ data i,
    snd (check_progress b uid)
    = Sent [Message (DidYouComplete freq text)
              [[Button "✅ Yes, completed!" data;
                Button "❌ Not yet" "not_complete"]]] ∧
    db (fst (button_callback b' uid data now))
    = record_completion (db b') uid k now ∧
    completions (record_completion (db b') uid k now)
    = completions (db b') ++ [CompletionRow i uid k now].
Proof.
  intros Hactive. exists ("complete_" +:+ pretty k). eexists.
  split; [|split].
  - unfold check_progress. by rewrite Hactive.
  - by rewrite button_callback_complete.
  - reflexivity.
Qed.

Lemma completion_records_button_id_witness :
  get_active_challenge (db pushups_bot) 1 = Some (1, "10 pushups", "daily") ∧
  ∃ data i,
    snd (check_progress pushups_bot 1)
    = Sent [Message (DidYouComplete "daily" "10 pushups")
              [[Button "✅ Yes, completed!" data;
                Button "❌ Not yet" "not_complete"]]] ∧
    db (fst (button_callback squats_bot 1 data 5))
    = record_completion (db squats_bot) 1 1 5 ∧
    completions (record_completion (db squats_bot) 1 1 5)
    = completions (db squats_bot) ++ [CompletionRow i 1 1 5].
Proof.
  assert (get_active_challenge (db pushups_bot) 1
          = Some (1, "10 pushups", "daily")) as H by (vm_compute; reflexivity).
  split; [exact H|].
  exact (completion_records_button_id pushups_bot squats_bot 1 1
           "10 pushups" "daily" 5 H).
Defined.

(** C3, as stated, fails: [add_challenge] writes the row for an empty text
    and for a frequency that is neither daily nor weekly. *)
Lemma add_challenge_writes_unvalidated_row :
  challenges (add_challenge init_db 1 "" "daily" 0)
  = [ChallengeRow 1 1 "" "daily" 0 true] ∧
  challenges (add_challenge init_db 1 "10 pushups" "monthly" 0)
  = [ChallengeRow 1 1 "10 pushups" "monthly" 0 true].
Proof. by vm_compute. Qed.

(** C3, amended.  [add_challenge] checks nothing: for every text and
    frequency it adds one row, which becomes the user's active challenge.
    What precedes the write is in the handlers: [receive_challenge] writes
    nothing while the user has chosen no frequency, and the frequency of
    every challenge written through the handlers is daily or weekly. *)
Theorem add_challenge_unvalidated :
  (∀ d uid text freq now,
     length (challenges (add_challenge d uid text freq now))
     = S (length (challenges d)) ∧
     ∃ id, get_active_challenge (add_challenge d uid text freq now) uid
           = Some (id, text, freq)) ∧
  (∀ b uid text now,
     user_data_of b uid !! "frequency" = None →
     receive_challenge b uid text now = (b, Sent [Message UseStartFirst []])) ∧
  (∀ us, Forall (λ c, frequency c = "daily" ∨ frequency c = "weekly")
           (challenges (db (run_bot init_bot us)))).
Proof.
  split; [|split].
  - intros d uid text freq now. split.
    + simpl. rewrite length_app, length_fmap. simpl. lia.
    + eexists. unfold get_active_challenge.
      by rewrite select_active_add_challenge.
  - intros b uid text now Hnone. unfold receive_challenge. by rewrite Hnone.
  - intros us.
    destruct (frequencies_offered_run init_bot us frequencies_offered_init)
      as [_ Hch].
    eapply Forall_impl; [exact Hch|].
    intros c [->|[->|Hc%elem_of_nil]%elem_of_cons]%elem_of_cons; auto.
    done.
Qed.

Lemma add_challenge_unvalidated_witness :
  user_data_of pushups_bot 1 !! "frequency" = None ∧
  receive_challenge pushups_bot 1 "" 3
  = (pushups_bot, Sent [Message UseStartFirst []]).
Proof.
  assert (user_data_of pushups_bot 1 !! "frequency" = None) as H
    by (vm_compute; reflexivity).
  split; [exact H|].
  exact (proj1 (proj2 add_challenge_unvalidated) pushups_bot 1 "" 3 H).
Defined.




(** C6, as stated, fails: with two active rows for user 1 the query
    answers with the first of them. *)
Lemma get_active_challenge_two_active :
  active_count two_active 1 = 2%nat ∧
  get_active_challenge two_active 1 = Some (1, "10 pushups", "daily").
Proof. by vm_compute. Qed.

(** C6, amended.  [get_active_challenge] raises nothing: it returns the
    first active row of the user in table order, whatever follows it, and
    returns nothing exactly when the user has no active row. *)
Theorem get_active_challenge_first_active :
  (∀ d uid pre c post,
     challenges d = pre ++ c :: post →
     filter (λ x, ch_user_id x = uid ∧ active x = true) pre = [] →
     ch_user_id c = uid → active c = true →
     get_active_challenge d uid
     = Some (ch_id c, challenge_text c, frequency c)) ∧
  (∀ d uid, get_active_challenge d uid = None ↔ active_count d uid = 0%nat).
Proof.
  split.
  - intros d uid pre c post Hd Hpre Hu Ha.
    unfold get_active_challenge, select_active.
    rewrite Hd, filter_app, Hpre. simpl.
    by rewrite filter_cons_True.
  - intros d uid. unfold get_active_challenge, select_active, active_count.
    destruct (filter _ (challenges d)) as [|c l]; simpl; split; done.
Qed.

Lemma get_active_challenge_first_active_witness :
  challenges two_active
  = [] ++ ChallengeRow 1 1 "10 pushups" "daily" 0 true
       :: [ChallengeRow 2 1 "20 squats" "weekly" 1 true] ∧
  get_active_challenge two_active 1 = Some (1, "10 pushups", "daily").
Proof.
  split; [reflexivity|].
  apply (proj1 get_active_challenge_first_active two_active 1 []
           (ChallengeRow 1 1 "10 pushups" "daily" 0 true)
           [ChallengeRow 2 1 "20 squats" "weekly" 1 true]);
    reflexivity.
Defined.

(** * Further properties of the code *)

(** ** Storage *)

Lemma completions_apply_prefix d op :
  completions d `prefix_of` completions (apply_operation d op).
Proof.
  destruct op; simpl; try done.
  by apply prefix_app_r.
Qed.

Lemma completions_run_prefix ops d :
  completions d `prefix_of` completions (run ops d).
Proof.
  revert d. induction ops as [|op ops IH]; intros d; [done|].
  etrans; [apply completions_apply_prefix|apply IH].
Qed.

(** X1.  The completions table is append-only: after any run of storage
    operations, and after any run of the bot, the table starts with the
    rows it had before, unchanged and in the same order. *)
Theorem completions_append_only :
  (∀ ops d, completions d `prefix_of` completions (run ops d)) ∧
  (∀ us b, completions (db b) `prefix_of` completions (db (run_bot b us))).
Proof.
  split.
  - intros ops d. apply completions_run_prefix.
  - intros us b. destruct (run_bot_operations b us) as [ops ->].
    apply completions_run_prefix.
Qed.

Lemma StronglySorted_snoc_lt (l : list Z) (x : Z) :
  StronglySorted Z.lt l → Forall (λ i, i < x) l → StronglySorted Z.lt (l ++ [x]).
Proof.
  intros Hl Hx. apply StronglySorted_app. split; [|split].
  - intros x1 x2 H1 ->%list_elem_of_singleton.
    rewrite Forall_forall in Hx. auto.
  - done.
  - repeat constructor.
Qed.

Lemma ids_increasing_apply d op :
  StronglySorted Z.lt (ch_id <$> challenges d) ∧
  StronglySorted Z.lt (co_id <$> completions d) →
  StronglySorted Z.lt (ch_id <$> challenges (apply_operation d op)) ∧
  StronglySorted Z.lt (co_id <$> completions (apply_operation d op)).
Proof.
  intros [Hch Hco]. destruct op as [|uid text freq now|uid cid now|]; simpl;
    try done.
  - split; [|done]. rewrite fmap_app, ch_id_deactivate. simpl.
    apply StronglySorted_snoc_lt; [done|].
    apply Forall_forall. intros i Hi. by apply next_id_fresh.
  - split; [done|]. rewrite fmap_app. simpl.
    apply StronglySorted_snoc_lt; [done|].
    apply Forall_forall. intros i Hi. by apply next_id_fresh.
Qed.

(** X2.  AUTOINCREMENT never reuses an id: in every state reached from the
    empty database the ids of the challenge rows, and those of the
    completion rows, are strictly increasing in table order, hence
    pairwise different. *)
Theorem ids_strictly_increasing (ops : list operation) :
  StronglySorted Z.lt (ch_id <$> challenges (run ops init_db)) ∧
  StronglySorted Z.lt (co_id <$> completions (run ops init_db)) ∧
  NoDup (ch_id <$> challenges (run ops init_db)) ∧
  NoDup (co_id <$> completions (run ops init_db)).
Proof.
  assert (∀ d,
    StronglySorted Z.lt (ch_id <$> challenges d) ∧
    StronglySorted Z.lt (co_id <$> completions d) →
    StronglySorted Z.lt (ch_id <$> challenges (run ops d)) ∧
    StronglySorted Z.lt (co_id <$> completions (run ops d))) as Hrun.
  { induction ops as [|op ops IH]; intros d Hd; [done|].
    apply IH, ids_increasing_apply, Hd. }
  destruct (Hrun init_db) as [Hch Hco]; [split; constructor|].
  assert (∀ l, StronglySorted Z.lt l → NoDup l) as Hnodup.
  { induction 1 as [|x l _ IH Hx]; constructor; [|done].
    intros Hin. rewrite Forall_forall in Hx. specialize (Hx _ Hin). lia. }
  auto.
Qed.

Lemma select_active_add_challenge_other d uid uid' text freq now :
  uid' ≠ uid →
  select_active (add_challenge d uid text freq now) uid' = select_active d uid'.
Proof.
  intros Hne. unfold select_active, add_challenge; simpl.
  rewrite filter_app, filter_active_deactivate_other by done.
  rewrite filter_cons_False, filter_nil, app_nil_r; [done|].
  simpl. intros [? _]. congruence.
Qed.

Lemma select_active_apply_other d op uid :
  ¬ sets_challenge_of uid op →
  select_active (apply_operation d op) uid = select_active d uid.
Proof.
  destruct op as [|u text freq now| |]; simpl; try done.
  intros Hne. apply select_active_add_challenge_other. congruence.
Qed.

Lemma select_active_run_other ops d uid :
  Forall (λ op, ¬ sets_challenge_of uid op) ops →
  select_active (run ops d) uid = select_active d uid.
Proof.
  intros Hops. revert d.
  induction Hops as [|op ops Hop _ IH]; intros d; [done|].
  simpl. by rewrite IH, select_active_apply_other.
Qed.

(** X3.  A user who has an active challenge never loses it: after any run
    of storage operations the query for the active challenge still finds
    one. *)
Theorem active_challenge_never_lost (ops : list operation) (d : database)
    (uid : Z) :
  is_Some (get_active_challenge d uid) →
  is_Some (get_active_challenge (run ops d) uid).
Proof.
  revert d. induction ops as [|op ops IH]; intros d Hd; [done|].
  apply IH. destruct op as [|u text freq now| |]; simpl; try done.
  unfold get_active_challenge.
  destruct (decide (uid = u)) as [->|Hne].
  - by rewrite select_active_add_challenge.
  - by rewrite select_active_add_challenge_other.
Qed.

Lemma active_challenge_never_lost_witness :
  is_Some (get_active_challenge two_active 1) ∧
  is_Some (get_active_challenge
             (run [SetChallenge 2 "run" "daily" 5; RecordCompletion 1 1 6]
                two_active) 1).
Proof.
  assert (is_Some (get_active_challenge two_active 1)) as H by (by eexists).
  split; [exact H|].
  exact (active_challenge_never_lost
           [SetChallenge 2 "run" "daily" 5; RecordCompletion 1 1 6]
           two_active 1 H).
Defined.

(** X4.  The last challenge set for a user is the active one: after
    [add_challenge] for a user, followed by any operations that set no
    challenge for that user, the active challenge of the user is the one
    that was set, under the id it was given. *)
Theorem last_set_challenge_is_active (d : database) (ops : list operation)
    (uid : Z) (text freq : string) (now : Z) :
  Forall (λ op, ¬ sets_challenge_of uid op) ops →
  get_active_challenge (run (SetChallenge uid text freq now :: ops) d) uid
  = Some (challenges_seq (add_challenge d uid text freq now), text, freq).
Proof.
  intros Hops. unfold get_active_challenge. simpl.
  change (foldl apply_operation ?x ops) with (run ops x).
  by rewrite select_active_run_other, select_active_add_challenge.
Qed.

Lemma last_set_challenge_is_active_witness :
  Forall (λ op, ¬ sets_challenge_of 1 op)
    [RegisterUser 1 None None; SetChallenge 2 "run" "weekly" 8;
     RecordCompletion 1 1 9] ∧
  get_active_challenge
    (run [SetChallenge 1 "20 squats" "weekly" 7;
          RegisterUser 1 None None; SetChallenge 2 "run" "weekly" 8;
          RecordCompletion 1 1 9] init_db) 1
  = Some (1, "20 squats", "weekly").
Proof.
  assert (Forall (λ op, ¬ sets_challenge_of 1 op)
            [RegisterUser 1 None None; SetChallenge 2 "run" "weekly" 8;
             RecordCompletion 1 1 9]) as H.
  { repeat constructor; simpl; auto; lia. }
  split; [exact H|].
  exact (last_set_challenge_is_active init_db _ 1 "20 squats" "weekly" 7 H).
Defined.

(** ** The leaderboard *)

Lemma left_join_ext us cs cs' cutoff :
  Forall (λ u, on_rows u cs cutoff = on_rows u cs' cutoff) us →
  left_join us cs cutoff = left_join us cs' cutoff.
Proof.
  intros Hus. unfold left_join. apply Forall_bind_ext.
  eapply Forall_impl; [exact Hus|].
  intros u Hu. unfold join_rows. by rewrite Hu.
Qed.

(** X5.  Completions of user ids that have no row in users do not show in
    the leaderboard: the result is the same as on the database without
    those completion rows. *)
Theorem leaderboard_ignores_unregistered (d : database) (now : Z) :
  get_monthly_stats d now
  = get_monthly_stats
      (Database (users d) (challenges d)
         (filter (λ c, co_user_id c ∈ (user_id <$> users d)) (completions d))
         (challenges_seq d) (completions_seq d)) now.
Proof.
  unfold get_monthly_stats, monthly_groups. simpl. do 3 f_equal.
  apply left_join_ext, Forall_forall. intros u Hu.
  unfold on_rows. rewrite list_filter_filter.
  apply list_filter_iff. intros c. split; [|by intros [? _]].
  intros [Hc Ht]. split; [done|].
  rewrite <-Hc. by apply list_elem_of_fmap_2.
Qed.

Lemma on_rows_app u cs cs' cutoff :
  on_rows u (cs ++ cs') cutoff = on_rows u cs cutoff ++ on_rows u cs' cutoff.
Proof. apply filter_app. Qed.

(** X6.  The window is open at its old end: a completion recorded at now
    minus thirty days, or earlier, leaves the leaderboard as it is. *)
Theorem leaderboard_excludes_old_completion
    (d : database) (uid cid t now : Z) :
  t ≤ now - thirty_days →
  get_monthly_stats (record_completion d uid cid t) now
  = get_monthly_stats d now.
Proof.
  intros Ht. unfold get_monthly_stats, monthly_groups. simpl. do 3 f_equal.
  apply left_join_ext, Forall_forall. intros u _.
  rewrite on_rows_app. unfold on_rows at 2.
  rewrite filter_cons_False, filter_nil, app_nil_r; [done|].
  simpl. lia.
Qed.

Lemma leaderboard_excludes_old_completion_witness :
  10 * day ≤ leaderboard_now - thirty_days ∧
  get_monthly_stats (record_completion leaderboard_scenario 10 1 (10 * day))
    leaderboard_now
  = get_monthly_stats leaderboard_scenario leaderboard_now.
Proof.
  assert (10 * day ≤ leaderboard_now - thirty_days) as H by (by vm_compute).
  split; [exact H|].
  exact (leaderboard_excludes_old_completion leaderboard_scenario 10 1
           (10 * day) leaderboard_now H).
Defined.

Lemma stat_of_record_completion d u uid cid t cutoff :
  cutoff < t →
  stat_of u (completions (record_completion d uid cid t)) cutoff
  = count_one_more uid (stat_of u (completions d) cutoff).
Proof.
  intros Ht. unfold stat_of, count_one_more. simpl.
  rewrite on_rows_app, length_app. unfold on_rows at 2.
  case_bool_decide as Hu.
  - rewrite filter_cons_True by done. simpl. f_equal. lia.
  - rewrite filter_cons_False by (simpl; intros [? _]; done).
    simpl. f_equal. lia.
Qed.

(** X7.  Under the primary key of users, a completion recorded inside the
    window raises the count of its user by one and leaves every other
    entry of the leaderboard as it is: where the result before has, up to
    order, the entry (first name, username, count) for each user row, the
    result after has the same entries with the count of that user
    raised by one. *)
Theorem leaderboard_counts_new_completion
    (d : database) (uid cid t now : Z) :
  users_pk d →
  now - thirty_days < t →
  get_monthly_stats d now
  ≡ₚ (λ u, (first_name u, username u, in_window_count d now (user_id u)))
     <$> users d ∧
  get_monthly_stats (record_completion d uid cid t) now
  ≡ₚ (λ u, (first_name u, username u,
            in_window_count d now (user_id u)
            + (if bool_decide (user_id u = uid) then 1 else 0)))
     <$> users d.
Proof.
  intros Hpk Ht. split; [by apply monthly_stats_pk|].
  unfold get_monthly_stats.
  rewrite monthly_groups_perm.
  change (users (record_completion d uid cid t)) with (users d).
  rewrite group_by_user_pk by done.
  rewrite <-list_fmap_compose.
  erewrite list_fmap_ext; [reflexivity|].
  intros _ u _. unfold compose. cbv beta.
  rewrite (stat_of_record_completion d u uid cid t) by done.
  unfold count_one_more, stat_of. simpl.
  rewrite on_rows_length.
  case_bool_decide; simpl; [done|]. by rewrite Z.add_0_r.
Qed.

Lemma leaderboard_counts_new_completion_witness :
  users_pk leaderboard_scenario ∧
  leaderboard_now - thirty_days < 12 * day ∧
  get_monthly_stats (record_completion leaderboard_scenario 10 1 (12 * day))
    leaderboard_now
  ≡ₚ (λ u, (first_name u, username u,
            in_window_count leaderboard_scenario leaderboard_now (user_id u)
            + (if bool_decide (user_id u = 10) then 1 else 0)))
     <$> users leaderboard_scenario.
Proof.
  assert (users_pk leaderboard_scenario) as Hpk.
  { apply (bool_decide_unpack _). vm_compute. exact I. }
  assert (leaderboard_now - thirty_days < 12 * day) as Ht
    by (vm_compute; reflexivity).
  split; [exact Hpk|]. split; [exact Ht|].
  exact (proj2 (leaderboard_counts_new_completion leaderboard_scenario 10 1
                  (12 * day) leaderboard_now Hpk Ht)).
Defined.

Lemma monthly_stats_nil d now : get_monthly_stats d now = [] ↔ users d = [].
Proof.
  split.
  - intros Hnil. destruct (users d) as [|u us] eqn:Hus; [done|exfalso].
    assert (user_id u ∈ (st_user_id <$> monthly_groups d now)) as Hin.
    { apply elem_of_monthly_groups_ids. rewrite Hus. by left. }
    unfold get_monthly_stats in Hnil. apply fmap_nil_inv in Hnil.
    rewrite Hnil in Hin. by apply elem_of_nil in Hin.
  - intros Hus. unfold get_monthly_stats, monthly_groups. by rewrite Hus.
Qed.

(** ** The handlers *)

(** X8.  [stats] changes nothing, and it answers that there are no
    statistics exactly when the users table is empty. *)
Theorem stats_no_statistics (b : bot) (now : Z) :
  fst (stats b now) = b ∧
  (snd (stats b now) = Sent [Message NoStatistics []] ↔ users (db b) = []).
Proof.
  unfold stats. rewrite <-(monthly_stats_nil (db b) now).
  destruct (get_monthly_stats (db b) now) as [|r rows]; simpl.
  - done.
  - split; [done|]. split; discriminate.
Qed.

Lemma py_or_nonempty (a : option string) (s : string) :
  s ≠ "" → py_or a s ≠ "".
Proof. intros Hs. destruct a as [[|c a]|]; simpl; done. Qed.

Lemma leaderboard_lines (rows : list (option string * option string * Z)) :
  let lines :=
    imap (λ (i : nat) '((first_name, username, count)
                        : option string * option string * Z),
            (medal_of (S i),
             py_or first_name (py_or username "Unknown"), count)) rows in
  snd <$> lines = snd <$> rows ∧
  Forall (λ l, snd (fst l) ≠ "") lines ∧
  (∀ i l, lines !! i = Some l → fst (fst l) = medal_of (S i)).
Proof.
  intros lines. unfold lines. split; [|split].
  - rewrite fmap_imap, <-imap_const. apply imap_ext.
    by intros i [[fn un] n] _.
  - apply Forall_forall.
    intros l (i & [[fn un] n] & -> & _)%elem_of_lookup_imap.
    simpl. by apply py_or_nonempty, py_or_nonempty.
  - intros i l Hl. rewrite list_lookup_imap in Hl.
    destruct (rows !! i) as [[[fn un] n]|]; simpl in Hl; [|done].
    by injection Hl as <-.
Qed.

(** X9.  When [stats] shows a leaderboard, it has one line per entry of
    the query result, in the same order and with the same counts, which do
    not increase down the list; the line at place i has the medal of
    place i (gold, silver, bronze, then none); and no line has an empty
    name. *)
Theorem stats_leaderboard_lines (b : bot) (now : Z)
    (lines : list (medal * string * Z)) :
  snd (stats b now) = Sent [Message (Leaderboard lines) []] →
  snd <$> lines = snd <$> get_monthly_stats (db b) now ∧
  StronglySorted (λ x y, y ≤ x) (snd <$> lines) ∧
  Forall (λ l, snd (fst l) ≠ "") lines ∧
  (∀ i l, lines !! i = Some l → fst (fst l) = medal_of (S i)).
Proof.
  unfold stats.
  destruct (get_monthly_stats (db b) now) as [|r rows] eqn:Hrows;
    [discriminate|].
  rewrite <-Hrows. clear r rows Hrows. cbn [snd]. intros [= <-].
  destruct (leaderboard_lines (get_monthly_stats (db b) now))
    as (Hsnd & Hname & Hmedal).
  split; [exact Hsnd|]. split; [|split; [exact Hname|exact Hmedal]].
  assert (StronglySorted (λ x y : Z, y ≤ x)
            (snd <$> get_monthly_stats (db b) now)) as Hsorted.
  { unfold get_monthly_stats. rewrite <-list_fmap_compose.
    eapply StronglySorted_fmap; [|apply monthly_groups_sorted].
    by intros x y. }
  rewrite <-Hsnd in Hsorted. exact Hsorted.
Qed.

Lemma stats_leaderboard_lines_witness :
  snd (stats (Bot leaderboard_scenario ∅) leaderboard_now)
  = Sent [Message (Leaderboard [(Gold, "A", 3); (Silver, "B", 0)]) []] ∧
  StronglySorted (λ x y, y ≤ x)
    (snd <$> [(Gold, "A"%string, 3); (Silver, "B"%string, 0)]).
Proof.
  assert (snd (stats (Bot leaderboard_scenario ∅) leaderboard_now)
          = Sent [Message (Leaderboard [(Gold, "A", 3); (Silver, "B", 0)]) []])
    as H by (vm_compute; reflexivity).
  split; [exact H|].
  exact (proj1 (proj2 (stats_leaderboard_lines _ _ _ H))).
Defined.

Lemma user_data_of_insert b uid (ud : gmap string string) :
  user_data_of (Bot (db b) (<[uid := ud]> (user_data b))) uid = ud.
Proof. unfold user_data_of. simpl. by rewrite lookup_insert_eq. Qed.

(** X10.  A challenge text uses up the chosen frequency: after
    [receive_challenge] has written a challenge, the user's dictionary is
    empty, and a further text from the user writes nothing and is answered
    with the request to start over. *)
Theorem receive_challenge_consumes_frequency
    (b : bot) (uid : Z) (f text1 text2 : string) (now1 now2 : Z) :
  user_data_of b uid !! "frequency" = Some f →
  let b1 := fst (receive_challenge b uid text1 now1) in
  db b1 = add_challenge (db b) uid text1 f now1 ∧
  user_data_of b1 uid = ∅ ∧
  receive_challenge b1 uid text2 now2 = (b1, Sent [Message UseStartFirst []]).
Proof.
  intros Hf b1.
  assert (b1 = Bot (add_challenge (db b) uid text1 f now1)
                 (<[uid := ∅]> (user_data b))) as ->.
  { unfold b1, receive_challenge. by rewrite Hf. }
  split; [done|].
  assert (user_data_of
            (Bot (add_challenge (db b) uid text1 f now1)
               (<[uid := ∅]> (user_data b))) uid = ∅) as Hud.
  { unfold user_data_of. simpl. by rewrite lookup_insert_eq. }
  split; [exact Hud|].
  unfold receive_challenge. by rewrite Hud, lookup_empty.
Qed.

Lemma receive_challenge_consumes_frequency_witness :
  user_data_of (fst (button_callback pushups_bot 1 "weekly" 3)) 1
    !! "frequency" = Some "weekly"%string ∧
  receive_challenge
    (fst (receive_challenge (fst (button_callback pushups_bot 1 "weekly" 3))
            1 "20 squats" 4)) 1 "30 situps" 5
  = (fst (receive_challenge (fst (button_callback pushups_bot 1 "weekly" 3))
            1 "20 squats" 4),
     Sent [Message UseStartFirst []]).
Proof.
  assert (user_data_of (fst (button_callback pushups_bot 1 "weekly" 3)) 1
            !! "frequency" = Some "weekly"%string) as H
    by (vm_compute; reflexivity).
  split; [exact H|].
  exact (proj2 (proj2 (receive_challenge_consumes_frequency
                         _ 1 "weekly" "20 squats" "30 situps" 4 5 H))).
Defined.

(** X11.  Setting up a challenge: when a user presses one of the two
    frequency buttons and then sends a text, the text becomes the user's
    active challenge with the chosen frequency, it is the user's only
    active challenge, and the user's dictionary is empty again. *)
Theorem setup_sets_active_challenge
    (b : bot) (uid : Z) (f text : string) (t1 t2 : Z) :
  f = "daily" ∨ f = "weekly" →
  let b2 := run_bot b [(CallbackQuery uid f, t1); (TextMessage uid text, t2)] in
  (∃ id, get_active_challenge (db b2) uid = Some (id, text, f)) ∧
  active_count (db b2) uid = 1%nat ∧
  user_data_of b2 uid = ∅.
Proof.
  intros Hf b2.
  assert (fst (button_callback b uid f t1)
          = Bot (db b)
              (<[uid := <["frequency" := f]> (user_data_of b uid)]>
                 (user_data b))) as Hb1.
  { unfold button_callback. rewrite bool_decide_eq_true_2; [done|].
    destruct Hf as [->| ->]; [by left|by right; left]. }
  assert (b2 = Bot (add_challenge (db b) uid text f t2)
                 (<[uid := ∅]>
                    (<[uid := <["frequency" := f]> (user_data_of b uid)]>
                       (user_data b)))) as ->.
  { unfold b2, run_bot. simpl. rewrite Hb1. unfold receive_challenge.
    rewrite user_data_of_insert, lookup_insert_eq. done. }
  split; [|split].
  - eexists. unfold get_active_challenge. simpl db.
    by rewrite select_active_add_challenge.
  - apply active_count_add_challenge_same.
  - unfold user_data_of. simpl. by rewrite lookup_insert_eq.
Qed.

Lemma setup_sets_active_challenge_witness :
  ("weekly" = "daily" ∨ "weekly" = "weekly")%string ∧
  ∃ id, get_active_challenge
          (db (run_bot pushups_bot
                 [(CallbackQuery 1 "weekly", 3); (TextMessage 1 "20 squats", 4)]))
          1
        = Some (id, "20 squats"%string, "weekly"%string).
Proof.
  assert ("weekly" = "daily" ∨ "weekly" = "weekly")%string as H
    by (right; reflexivity).
  split; [exact H|].
  exact (proj1 (setup_sets_active_challenge pushups_bot 1 "weekly" "20 squats"
                  3 4 H)).
Defined.

(** X12.  Users do not interfere: an update that comes from one user
    changes neither the active challenge, nor the completion rows, nor the
    dictionary of another user. *)
Theorem handle_other_user_unchanged
    (b : bot) (u : update) (now uid : Z) :
  sender u ≠ Some uid →
  let b' := fst (handle b u now) in
  get_active_challenge (db b') uid = get_active_challenge (db b) uid ∧
  filter (λ c, co_user_id c = uid) (completions (db b'))
  = filter (λ c, co_user_id c = uid) (completions (db b)) ∧
  user_data_of b' uid = user_data_of b uid.
Proof.
  intros Hu b'. unfold b'.
  destruct u as [uid0 uname fname|uid0| |uid0 data|uid0 txt]; simpl.
  - done.
  - unfold check_progress.
    by destruct (get_active_challenge (db b) uid0) as [[[??]?]|].
  - unfold stats. by destruct (get_monthly_stats _ _).
  - assert (uid0 ≠ uid) as Hne by (intros ->; by apply Hu).
    unfold button_callback. case_bool_decide; simpl.
    + split; [done|]. split; [done|].
      unfold user_data_of. simpl. by rewrite lookup_insert_ne.
    + destruct (String.prefix _ _); [|done].
      destruct (_ ≫= py_int) as [cid|]; [|done].
      simpl. split; [done|]. split; [|done].
      rewrite filter_app, filter_cons_False, filter_nil, app_nil_r; done.
  - assert (uid0 ≠ uid) as Hne by (intros ->; by apply Hu).
    unfold receive_challenge.
    destruct (user_data_of b uid0 !! "frequency") as [f|]; [|done].
    simpl. split; [|split; [done|]].
    + unfold get_active_challenge.
      by rewrite select_active_add_challenge_other.
    + unfold user_data_of. simpl. by rewrite lookup_insert_ne.
Qed.

Lemma handle_other_user_unchanged_witness :
  sender (TextMessage 2 "run") ≠ Some 1 ∧
  get_active_challenge
    (db (fst (handle (fst (button_callback pushups_bot 2 "daily" 3))
                (TextMessage 2 "run") 4))) 1
  = get_active_challenge (db (fst (button_callback pushups_bot 2 "daily" 3))) 1.
Proof.
  assert (sender (TextMessage 2 "run") ≠ Some 1) as H by (by vm_compute).
  split; [exact H|].
  exact (proj1 (handle_other_user_unchanged
                  (fst (button_callback pushups_bot 2 "daily" 3))
                  (TextMessage 2 "run") 4 1 H)).
Defined.

(** ** Callback data *)

Lemma split_cons (sep : ascii) (s : string) : ∃ w ws, split sep s = w :: ws.
Proof.
  destruct s as [|c s]; simpl; [eauto|].
  case_bool_decide; [eauto|]. destruct (split sep s); eauto.
Qed.

(** X13.  [split] loses nothing and cuts at every separator: joining the
    pieces with the separator gives the string back, no piece contains the
    separator, and there is always at least one piece. *)
Theorem split_join (sep : ascii) (s : string) :
  join sep (split sep s) = s ∧
  Forall (string_Forall (λ c, c ≠ sep)) (split sep s) ∧
  split sep s ≠ [].
Proof.
  split; [|split].
  - induction s as [|c s IH]; [done|]. simpl.
    destruct (split_cons sep s) as (w & ws & Hs). rewrite Hs in IH |- *.
    case_bool_decide as Hc.
    + subst c.
      change (join sep ("" :: w :: ws))
        with ("" +:+ String sep (join sep (w :: ws))).
      by rewrite IH.
    + rewrite <-IH. by destruct ws.
  - induction s as [|c s IH]; [by repeat constructor|]. simpl.
    destruct (split_cons sep s) as (w & ws & Hs). rewrite Hs in IH |- *.
    apply Forall_cons in IH as [Hw Hws].
    case_bool_decide as Hc.
    + by repeat constructor.
    + constructor; [by split|done].
  - destruct (split_cons sep s) as (w & ws & ->). done.
Qed.

Lemma split_no_sep (sep : ascii) (s : string) :
  string_Forall (λ c, c ≠ sep) s → split sep s = [s].
Proof.
  induction s as [|c s IH]; [done|]. intros [Hc Hs]. simpl.
  rewrite bool_decide_eq_false_2 by done. by rewrite IH.
Qed.

Lemma split_app_sep (sep : ascii) (s rest : string) :
  string_Forall (λ c, c ≠ sep) s →
  split sep (s +:+ String sep rest) = s :: split sep rest.
Proof.
  induction s as [|c s IH]; simpl.
  - intros _. by rewrite bool_decide_eq_true_2.
  - intros [Hc Hs]. rewrite bool_decide_eq_false_2 by done. by rewrite IH.
Qed.

Lemma complete_prefix (s : string) :
  String.prefix "complete_" ("complete_" +:+ s) = true ∧
  ("complete_" +:+ s) ∉ ["daily"; "weekly"].
Proof.
  split; [simpl; by destruct s|].
  intros [H|[H|H%elem_of_nil]%elem_of_cons]%elem_of_cons; [| |done];
    discriminate H.
Qed.

(** What [button_callback] does with data of the form complete_..., in
    terms of the piece that follows the first underscore. *)
Lemma button_callback_complete_piece b uid (s : string) (ws : list string) now :
  split "_" ("complete_" +:+ s) = "complete" :: ws →
  button_callback b uid ("complete_" +:+ s) now
  = match head ws ≫= py_int with
    | Some k => (Bot (record_completion (db b) uid k now) (user_data b),
                 Sent [Message MarkedComplete []])
    | None => (b, Raised ValueError)
    end.
Proof.
  intros Hsplit. unfold button_callback.
  destruct (complete_prefix s) as [-> Hnot].
  rewrite bool_decide_eq_false_2 by done. rewrite Hsplit.
  by destruct ws.
Qed.

(** X14.  A "completed" button whose data does not carry an integer makes
    [button_callback] raise ValueError, and nothing is written. *)
Theorem button_callback_value_error
    (b : bot) (uid : Z) (s : string) (now : Z) :
  string_Forall (λ c, c ≠ "_"%char) s →
  py_int s = None →
  button_callback b uid ("complete_" +:+ s) now = (b, Raised ValueError).
Proof.
  intros Hs Hint.
  rewrite (button_callback_complete_piece b uid s [s] now).
  - simpl. by rewrite Hint.
  - simpl. f_equal. apply (split_no_sep "_" s Hs).
Qed.

Lemma button_callback_value_error_witness :
  string_Forall (λ c, c ≠ "_"%char) "" ∧ py_int "" = None ∧
  button_callback pushups_bot 1 "complete_" 5 = (pushups_bot, Raised ValueError).
Proof.
  assert (string_Forall (λ c, c ≠ "_"%char) "") as H1 by exact I.
  assert (py_int "" = None) as H2 by reflexivity.
  split; [exact H1|]. split; [exact H2|].
  exact (button_callback_value_error pushups_bot 1 "" 5 H1 H2).
Defined.

(** X15.  [button_callback] reads the piece between the first and the
    second underscore only: data with further underscore-separated pieces
    is handled as the data without them. *)
Theorem button_callback_ignores_further_pieces
    (b : bot) (uid : Z) (s rest : string) (now : Z) :
  string_Forall (λ c, c ≠ "_"%char) s →
  button_callback b uid ("complete_" +:+ s +:+ String "_" rest) now
  = button_callback b uid ("complete_" +:+ s) now.
Proof.
  intros Hs.
  rewrite (button_callback_complete_piece b uid (s +:+ String "_" rest)
             (s :: split "_" rest) now).
  - rewrite (button_callback_complete_piece b uid s [s] now); [done|].
    simpl. f_equal. apply (split_no_sep "_" s Hs).
  - simpl. f_equal. apply (split_app_sep "_" s rest Hs).
Qed.

Lemma button_callback_ignores_further_pieces_witness :
  string_Forall (λ c, c ≠ "_"%char) "1" ∧
  button_callback squats_bot 1 "complete_1_2" 5
  = button_callback squats_bot 1 "complete_1" 5.
Proof.
  assert (string_Forall (λ c, c ≠ "_"%char) "1") as H.
  { split; [discriminate|exact I]. }
  split; [exact H|].
  exact (button_callback_ignores_further_pieces squats_bot 1 "1" "2" 5 H).
Defined.

Lemma lstrip_spaces_app (ws s : string) :
  spaces ws → lstrip (ws +:+ s) = lstrip s.
Proof.
  induction ws as [|c ws IH]; [done|]. intros [Hc Hws]. simpl.
  rewrite Hc. by apply IH.
Qed.

Lemma rstrip_spaces (ws : string) : spaces ws → rstrip ws = "".
Proof.
  induction ws as [|c ws IH]; [done|]. intros [Hc Hws]. simpl.
  by rewrite IH, Hc.
Qed.

Lemma rstrip_app_spaces (s ws : string) :
  spaces ws → rstrip (s +:+ ws) = rstrip s.
Proof.
  intros Hws. induction s as [|c s IH]; simpl.
  - by apply rstrip_spaces.
  - by rewrite IH.
Qed.

Lemma pretty_Z_cons (z : Z) :
  ∃ c s, pretty z = String c s ∧ string_Forall plain (String c s).
Proof.
  pose proof (pretty_plain z) as Hpl.
  destruct z as [|p|p].
  - by exists "0"%char, "".
  - change (pretty (Z.pos p)) with (pretty p) in *.
    destruct (pretty_positive_digits p) as (c & s & Hp & _).
    rewrite Hp in Hpl. eauto.
  - change (pretty (Z.neg p)) with (String "-" (pretty p)) in *. eauto.
Qed.

Lemma is_ascii_app (s1 s2 : string) :
  is_ascii (s1 +:+ s2) = is_ascii s1 && is_ascii s2.
Proof.
  induction s1 as [|c s1 IH]; [done|]. simpl. by rewrite IH, andb_assoc.
Qed.

Lemma is_ascii_spaces (ws : string) : spaces ws → is_ascii ws = true.
Proof.
  induction ws as [|c ws IH]; [done|]. intros [Hc Hws]. simpl.
  rewrite IH by done. rewrite andb_true_r. apply bool_decide_eq_true_2.
  unfold py_isspace in Hc. apply bool_decide_eq_true_1 in Hc. lia.
Qed.

(** X16.  [int] reads back the decimal text of every integer of 64 bits,
    also with ASCII white space (tab to carriage return, space) before and
    after it. *)
Theorem py_int_of_decimal_text (z : Z) (ws1 ws2 : string) :
  - 2 ^ 63 ≤ z < 2 ^ 63 →
  spaces ws1 → spaces ws2 →
  py_int (ws1 +:+ pretty z +:+ ws2) = Some z.
Proof.
  intros _ H1 H2. rewrite py_int_ascii.
  2: { by rewrite !is_ascii_app, is_ascii_pretty, !is_ascii_spaces. }
  rewrite <-(long_from_string_pretty z). unfold long_from_string.
  destruct (pretty_Z_cons z) as (c & s & Hz & Hpl).
  assert (rstrip (lstrip (ws1 +:+ pretty z +:+ ws2))
          = rstrip (lstrip (pretty z))) as ->; [|done].
  rewrite lstrip_spaces_app by done. rewrite Hz.
  change (String c s +:+ ws2) with (String c (s +:+ ws2)).
  destruct Hpl as [Hc Hs].
  rewrite !lstrip_plain by done.
  change (String c (s +:+ ws2)) with (String c s +:+ ws2).
  by apply rstrip_app_spaces.
Qed.

Lemma py_int_of_decimal_text_witness :
  - 2 ^ 63 ≤ -12 < 2 ^ 63 ∧ spaces " " ∧ spaces "  " ∧
  py_int (" " +:+ pretty (-12) +:+ "  ") = Some (-12).
Proof.
  assert (- 2 ^ 63 ≤ -12 < 2 ^ 63) as H0 by lia.
  assert (spaces " ") as H1 by (by repeat split).
  assert (spaces "  ") as H2 by (by repeat split).
  split; [exact H0|]. split; [exact H1|]. split; [exact H2|].
  exact (py_int_of_decimal_text (-12) " " "  " H0 H1 H2).
Defined.

(** ** Registrations *)

Lemma StronglySorted_filter_user (P : user_row → Prop)
    `{!∀ x, Decision (P x)} (l : list user_row) :
  StronglySorted by_user_id l → StronglySorted by_user_id (filter P l).
Proof.
  induction 1 as [|x l _ IH Hx]; [constructor|].
  rewrite filter_cons. case_decide; [|done].
  constructor; [done|].
  apply Forall_forall. intros y [_ Hy]%list_elem_of_filter.
  rewrite Forall_forall in Hx. auto.
Qed.

Lemma StronglySorted_insert_user_row (r : user_row) (l : list user_row) :
  StronglySorted by_user_id l →
  Forall (λ x, user_id x ≠ user_id r) l →
  StronglySorted by_user_id (insert_user_row r l).
Proof.
  induction 1 as [|x l Hl IH Hx]; intros Hne; simpl.
  - repeat constructor.
  - apply Forall_cons in Hne as [Hxr Hne]. case_bool_decide as Hlt.
    + constructor; [by constructor|].
      constructor; [done|].
      eapply Forall_impl; [exact Hx|].
      intros y Hy. unfold by_user_id in *. lia.
    + constructor; [by apply IH|].
      apply Forall_forall. intros y [->|Hy]%elem_of_insert_user_row.
      * unfold by_user_id. lia.
      * rewrite Forall_forall in Hx. auto.
Qed.

Lemma users_sorted_add_user d uid uname fname :
  StronglySorted by_user_id (users d) →
  StronglySorted by_user_id (users (add_user d uid uname fname)).
Proof.
  intros Hd. simpl.
  apply (StronglySorted_insert_user_row (UserRow uid uname fname)).
  - by apply StronglySorted_filter_user.
  - apply Forall_forall. by intros x [? _]%list_elem_of_filter.
Qed.

Lemma users_sorted_run ops d :
  StronglySorted by_user_id (users d) →
  StronglySorted by_user_id (users (run ops d)).
Proof.
  revert d. induction ops as [|op ops IH]; intros d Hd; [done|].
  apply IH. destruct op; simpl; try done.
  by apply users_sorted_add_user.
Qed.

(** X17.  Registrations of different users can be made in either order:
    in every state reached from the empty database, adding user u1 and
    then user u2 gives the same database as adding u2 and then u1. *)
Theorem add_user_commutes (ops : list operation) (u1 u2 : Z)
    (uname1 fname1 uname2 fname2 : option string) :
  u1 ≠ u2 →
  let d := run ops init_db in
  add_user (add_user d u1 uname1 fname1) u2 uname2 fname2
  = add_user (add_user d u2 uname2 fname2) u1 uname1 fname1.
Proof.
  intros Hne d.
  assert (StronglySorted by_user_id (users d)) as Hd.
  { apply users_sorted_run. constructor. }
  unfold add_user at 1 3. cbn [challenges completions challenges_seq
                               completions_seq]. f_equal.
  apply (StronglySorted_unique_strong by_user_id).
  - intros x y _ _. unfold by_user_id. lia.
  - by apply (users_sorted_add_user _ u2), users_sorted_add_user.
  - by apply (users_sorted_add_user _ u1), users_sorted_add_user.
  - simpl. rewrite !insert_user_row_perm.
    rewrite !filter_cons_True by (simpl; congruence).
    rewrite !list_filter_filter.
    rewrite Permutation_swap. do 2 f_equiv.
    erewrite list_filter_iff; [reflexivity|].
    intros x. simpl. tauto.
Qed.

Lemma add_user_commutes_witness :
  1 ≠ 2 ∧
  add_user (add_user (run [RegisterUser 3 None None] init_db)
              1 None (Some "U1")) 2 (Some "u2") None
  = add_user (add_user (run [RegisterUser 3 None None] init_db)
                2 (Some "u2") None) 1 None (Some "U1").
Proof.
  assert (1 ≠ 2) as H by lia.
  split; [exact H|].
  exact (add_user_commutes [RegisterUser 3 None None] 1 2
           None (Some "U1") (Some "u2") None H).
Defined.

(** ** Buttons *)

(** X18.  The bot understands its own buttons: pressing any button of a
    keyboard sent by [start] or by [check_progress], by any user and in
    any state, never raises. *)
Theorem offered_buttons_never_raise
    (b : bot) (uid : Z) (uname : option string) (fname : string)
    (btn : button) (b' : bot) (uid' now : Z) :
  btn ∈ buttons (snd (start b uid uname fname))
        ++ buttons (snd (check_progress b uid)) →
  ∃ msgs, snd (button_callback b' uid' (callback_data btn) now) = Sent msgs.
Proof.
  intros [Hbtn|Hbtn]%elem_of_app.
  - simpl in Hbtn.
    apply elem_of_cons in Hbtn as [->|[->|[]%elem_of_nil]%elem_of_cons];
      by eexists.
  - unfold check_progress in Hbtn.
    destruct (get_active_challenge (db b) uid) as [[[k text] freq]|];
      simpl in Hbtn; [|by apply elem_of_nil in Hbtn].
    apply elem_of_cons in Hbtn as [->|[->|[]%elem_of_nil]%elem_of_cons].
    + cbn [callback_data]. rewrite button_callback_complete. by eexists.
    + by eexists.
Qed.

Lemma offered_buttons_never_raise_witness :
  Button "✅ Yes, completed!" "complete_1"
  ∈ buttons (snd (start pushups_bot 1 None "U1"))
    ++ buttons (snd (check_progress pushups_bot 1)) ∧
  ∃ msgs, snd (button_callback squats_bot 2 "complete_1" 9) = Sent msgs.
Proof.
  assert (Button "✅ Yes, completed!" "complete_1"
          ∈ buttons (snd (start pushups_bot 1 None "U1"))
            ++ buttons (snd (check_progress pushups_bot 1))) as H.
  { apply elem_of_app. right.
    assert (buttons (snd (check_progress pushups_bot 1))
            = [Button "✅ Yes, completed!" "complete_1";
               Button "❌ Not yet" "not_complete"]) as ->
      by (vm_compute; reflexivity).
    by left. }
  split; [exact H|].
  exact (offered_buttons_never_raise pushups_bot 1 None "U1" _ squats_bot 2 9 H).
Defined.
